(** * OLLIE (main.py): discriminator, trainers, actor, replay buffer, trajectory
    splitting, dataset assembly, data selection, reward labelling and device
    selection, as a shallow embedding.

    Floating-point tensors are idealised as exact numbers: the loss and
    discriminator computations, which use [exp], [log] and [sigmoid], are over
    [R]; the replay buffer, the trajectory splitter and the data selector,
    which only compare, add and multiply, are over [Q] so that they can be
    evaluated.  A tensor of shape (B,1) is a list of one-element rows when its
    shape matters (broadcasting), and a flat list otherwise. *)

From Stdlib Require Import List Arith ZArith Lia Bool.
From Stdlib Require Import Sorting.Sorted.
From Stdlib Require Import QArith Qpower.
From Stdlib Require Import Reals Lra.
From Stdlib Require String.
Import ListNotations.

(** ** Python exceptions, as an error monad *)

Inductive py_exc : Type :=
| TypeError
| ValueError
| IndexError
| RuntimeError.

Inductive except (A : Type) : Type :=
| Ok (a : A)
| Raise (e : py_exc).
Arguments Ok {A} a.
Arguments Raise {A} e.

Definition bind {A B : Type} (m : except A) (f : A -> except B) : except B :=
  match m with
  | Ok a => f a
  | Raise e => Raise e
  end.

Notation "x <- m ;; k" := (bind m (fun x => k))
  (at level 61, m at next level, right associativity).

(** Elementwise binary operation on two tensors of one shape. *)
Definition map2 {A B C : Type} (f : A -> B -> C) (xs : list A) (ys : list B) : list C :=
  map (fun p => f (fst p) (snd p)) (combine xs ys).

(** ** Discriminator (lines 383-397) *)
Module Discriminator.
Local Open Scope R_scope.

(** [nn.Linear]: one row of weights and one bias per output feature.  The
    zips assume the shapes fit; [forward] checks them first ([layer_ok]),
    since [nn.Linear] raises on shapes that do not. *)
Definition dot (u v : list R) : R :=
  fold_right Rplus 0 (map2 Rmult u v).

Definition linear (W : list (list R)) (b : list R) (x : list R) : list R :=
  map2 (fun w c => dot w x + c) W b.

Definition relu (x : R) : R := Rmax 0 x.

Definition sigmoid (x : R) : R := / (1 + exp (- x)).

(** [torch.clip(x, lo, hi)] *)
Definition clip (x lo hi : R) : R := Rmin (Rmax x lo) hi.

Record params : Type := {
  fc1_W : list (list R); fc1_b : list R;
  fc2_W : list (list R); fc2_b : list R;
  fc3_W : list (list R); fc3_b : list R
}.

(** [forward] on one row of [torch.cat([state, action], dim=1)]: the result is
    the row of the (B,1) output. *)
Definition forward_row (p : params) (s a : list R) : list R :=
  let d := map relu (linear (fc1_W p) (fc1_b p) (s ++ a)) in
  let d := map relu (linear (fc2_W p) (fc2_b p) d) in
  let d := map sigmoid (linear (fc3_W p) (fc3_b p) d) in
  map (fun x => clip x (1/10) (9/10)) d.

(** [nn.Linear] accepts an input of width [n] when its weight has one row of
    [n] entries per output feature and one bias per output feature. *)
Definition layer_ok (W : list (list R)) (b : list R) (n : nat) : bool :=
  (length W =? length b) && forallb (fun w => length w =? n) W.

(** The shapes [forward] runs through: each row of [torch.cat([state, action],
    dim=1)] fits [fc1], and each layer's output width fits the next layer. *)
Definition shapes_ok (p : params) (S A : list (list R)) : bool :=
  forallb (fun sa => layer_ok (fc1_W p) (fc1_b p) (length (fst sa) + length (snd sa)))
    (combine S A) &&
  layer_ok (fc2_W p) (fc2_b p) (length (fc1_W p)) &&
  layer_ok (fc3_W p) (fc3_b p) (length (fc2_W p)).

(** [forward(state, action)] on a batch: [torch.cat] along dim 1 needs the two
    batches to have the same number of rows, and [nn.Linear] raises on an
    input whose width is not its [in_features]. *)
Definition forward (p : params) (S A : list (list R)) : except (list (list R)) :=
  if length S =? length A then
    if shapes_ok p S A then Ok (map2 (forward_row p) S A) else Raise RuntimeError
  else Raise RuntimeError.

End Discriminator.

(** ** Trainers (lines 457-460, 467-491, 527-559) *)
Module Trainer.
Local Open Scope R_scope.

(** [torch.mean] over all entries. *)
Definition mean (xs : list R) : R := fold_right Rplus 0 xs / INR (length xs).

(** Minibatch of (state, action) rows drawn from a buffer by [sample]. *)
Definition batch : Type := (list (list R) * list (list R))%type.

(** Lines 476-483: the discriminator loss from the two (B,1) outputs. *)
Definition d_loss (no_pu_learning : bool) (eta : R) (d_e d_s : list (list R)) : R :=
  let de := concat d_e in
  let ds := concat d_s in
  if no_pu_learning then
    let d_loss_e := map (fun x => - ln x) de in
    let d_loss_s := map (fun x => - ln (1 - x)) ds in
    mean (map2 Rplus d_loss_e d_loss_s)
  else
    let d_loss_e := map (fun x => - ln x) de in
    let d_loss_s := map2 (fun s e => - ln (1 - s) / eta + ln (1 - e)) ds de in
    mean (map2 Rplus d_loss_e d_loss_s).

(** Loss of one step at parameters [p] on the minibatches [be] (from D_e) and
    [bs] (from D_s). *)
Definition step_loss (no_pu_learning : bool) (eta : R) (p : Discriminator.params)
    (be bs : batch) : except R :=
  d_e <- Discriminator.forward p (fst be) (snd be) ;;
  d_s <- Discriminator.forward p (fst bs) (snd bs) ;;
  Ok (d_loss no_pu_learning eta d_e d_s).

Section TrainDiscriminator.
(** The optimizer: zero_grad, backward and step, given the loss as a function
    of the parameters. *)
Variable opt : Discriminator.params -> (Discriminator.params -> except R) -> Discriminator.params.
Variable no_pu_learning : bool.
Variable eta : R.

(** Lines 468-488: one step per pair of sampled minibatches; returns the
    losses of the steps in order and the final parameters. *)
Fixpoint train_discriminator (p : Discriminator.params) (batches : list (batch * batch))
  : except (list R * Discriminator.params) :=
  match batches with
  | [] => Ok ([], p)
  | (be, bs) :: rest =>
      l <- step_loss no_pu_learning eta p be bs ;;
      r <- train_discriminator (opt p (fun q => step_loss no_pu_learning eta q be bs)) rest ;;
      Ok (l :: fst r, snd r)
  end.

(** The parameters at which the steps of [train_discriminator] evaluate their
    losses: [p] for the first, then the optimizer's result of each step. *)
Fixpoint step_params (p : Discriminator.params) (batches : list (batch * batch))
  : list Discriminator.params :=
  match batches with
  | [] => []
  | (be, bs) :: rest =>
      p :: step_params (opt p (fun q => step_loss no_pu_learning eta q be bs)) rest
  end.
End TrainDiscriminator.

(** The loss as the spec writes it, one term per sample. *)
Definition spec_d_loss (no_pu_learning : bool) (eta : R) (d_e d_s : list (list R)) : R :=
  if no_pu_learning then
    mean (map2 (fun e s => - ln e - ln (1 - s)) (concat d_e) (concat d_s))
  else
    mean (map2 (fun e s => - ln e - ln (1 - s) / eta + ln (1 - e)) (concat d_e) (concat d_s)).

(** [torch.sum(x, 1)] on a (B, action_dim) tensor: shape (B,). *)
Definition sum_dim1 (x : list (list R)) : list R := map (fold_right Rplus 0) x.

(** Lines 457-460. *)
Definition alpha_and_alpha_loss (log_alpha epsilon : R) (log_pi log_pi_e : list R) : R * R :=
  let alpha_loss := exp log_alpha * (mean log_pi + epsilon - mean log_pi_e) in
  let alpha := exp log_alpha in
  (alpha, alpha_loss).

(** Broadcasting a (B,) tensor [v] against a (B,1) tensor [col]: the result
    has shape (B,B), entry (i,j) being [v_j * col_i]. *)
Definition bcast_mul (v : list R) (col : list (list R)) : list (list R) :=
  map (fun r => map (fun x => x * hd 0 r) v) col.

Record policy_step : Type := {
  ps_alpha : R;
  ps_alpha_loss : option R;
  ps_p_loss : R
}.

(** Lines 536-552.  [log_pi_s] and [log_pi_e] are the student's per-dimension
    log densities on the D_s and D_e minibatches, [log_pi_e_e] the reference
    policy's on D_e, [weight_s] the (B,1) weight column of the D_s minibatch,
    [alpha] the current value of [self.alpha]. *)
Definition train_policy_losses (automatic_alpha_tuning : bool) (alpha log_alpha epsilon : R)
    (log_pi_s log_pi_e log_pi_e_e weight_s : list (list R)) : policy_step :=
  let '(alpha, alpha_loss) :=
    if automatic_alpha_tuning then
      let r := alpha_and_alpha_loss log_alpha epsilon (sum_dim1 log_pi_e) (sum_dim1 log_pi_e_e) in
      (fst r, Some (snd r))
    else (alpha, None) in
  let p_loss :=
    mean (concat (bcast_mul (map Ropp (sum_dim1 log_pi_s)) weight_s))
    + alpha * mean (map Ropp (sum_dim1 log_pi_e)) in
  {| ps_alpha := alpha; ps_alpha_loss := alpha_loss; ps_p_loss := p_loss |}.

(** The policy loss as the spec reads it: a per-sample weighted negative
    log-likelihood on D_s plus the alpha-scaled one on D_e. *)
Definition spec_p_loss (alpha : R) (log_pi_s log_pi_e weight_s : list (list R)) : R :=
  mean (map2 (fun l w => - l * w) (sum_dim1 log_pi_s) (map (hd 0) weight_s))
  - alpha * mean (sum_dim1 log_pi_e).

End Trainer.

(** ** ReplayBuffer (lines 282-343) *)
Module Buffer.
Local Open Scope Q_scope.

Record buffer : Type := {
  max_size : nat;
  ptr : nat;
  size : nat;
  state : list (list Q);
  action : list (list Q);
  next_state : list (list Q);
  reward : list Q;
  not_done : list Q;
  flag : list Q;
  weight : list Q;
  timeout : list Q
}.

(** [__init__]: every column is pre-allocated with [max_size] rows. *)
Definition init (state_dim action_dim max_size : nat) : buffer := {|
  max_size := max_size; ptr := 0; size := 0;
  state := repeat (repeat 0 state_dim) max_size;
  action := repeat (repeat 0 action_dim) max_size;
  next_state := repeat (repeat 0 state_dim) max_size;
  reward := repeat 0 max_size;
  not_done := repeat 0 max_size;
  flag := repeat 0 max_size;
  weight := repeat 1 max_size;
  timeout := repeat 1 max_size |}.

(** The dictionary given to [convert_d4rl]. *)
Record d4rl : Type := {
  observations : list (list Q);
  actions : list (list Q);
  next_observations : list (list Q);
  rewards : list Q;
  terminals : list Q;
  flags : list Q;
  timeouts : list Q
}.

Definition convert_d4rl (rb : buffer) (ds : d4rl) : buffer := {|
  max_size := max_size rb; ptr := ptr rb;
  state := observations ds;
  action := actions ds;
  next_state := next_observations ds;
  reward := rewards ds;
  not_done := map (fun t => 1 - t) (terminals ds);
  flag := flags ds;
  timeout := timeouts ds;
  weight := repeat 1 (length (rewards ds));
  size := length (observations ds) |}.

(** [normalize_states] with the given mean and std rows. *)
Definition normalize_row (mean std : list Q) (r : list Q) : list Q :=
  map2 (fun x ms => (x - fst ms) / snd ms) r (combine mean std).

Definition normalize_states (rb : buffer) (mean std : list Q) : buffer := {|
  max_size := max_size rb; ptr := ptr rb; size := size rb;
  state := map (normalize_row mean std) (state rb);
  action := action rb;
  next_state := map (normalize_row mean std) (next_state rb);
  reward := reward rb; not_done := not_done rb; flag := flag rb;
  weight := weight rb; timeout := timeout rb |}.

Definition add_transitions (rb other : buffer) : buffer :=
  let st := state rb ++ state other in {|
  max_size := max_size rb; ptr := ptr rb;
  state := st;
  action := action rb ++ action other;
  next_state := next_state rb ++ next_state other;
  reward := reward rb ++ reward other;
  not_done := not_done rb ++ not_done other;
  flag := flag rb ++ flag other;
  weight := weight rb ++ weight other;
  timeout := timeout rb ++ timeout other;
  size := length st |}.

(** [torch.randint(0, hi, (n,))]: [rng] stands for the generator's draws. *)
Definition randint (lo hi n : nat) (rng : nat -> nat) : except (list nat) :=
  if lo <? hi then Ok (map (fun j => lo + rng j mod (hi - lo))%nat (seq 0 n))
  else Raise RuntimeError.

(** [col[ind]] *)
Fixpoint gather {A : Type} (col : list A) (ind : list nat) : except (list A) :=
  match ind with
  | [] => Ok []
  | i :: ind' =>
      match nth_error col i with
      | Some x => r <- gather col ind' ;; Ok (x :: r)
      | None => Raise IndexError
      end
  end.

Record minibatch : Type := {
  mb_state : list (list Q); mb_action : list (list Q); mb_next_state : list (list Q);
  mb_reward : list Q; mb_not_done : list Q; mb_flag : list Q;
  mb_weight : list Q; mb_timeout : list Q
}.

Definition sample (rb : buffer) (batch_size : nat) (rng : nat -> nat) : except minibatch :=
  ind <- randint 0 (size rb) batch_size rng ;;
  s <- gather (state rb) ind ;;
  a <- gather (action rb) ind ;;
  ns <- gather (next_state rb) ind ;;
  r <- gather (reward rb) ind ;;
  nd <- gather (not_done rb) ind ;;
  f <- gather (flag rb) ind ;;
  w <- gather (weight rb) ind ;;
  t <- gather (timeout rb) ind ;;
  Ok {| mb_state := s; mb_action := a; mb_next_state := ns; mb_reward := r;
        mb_not_done := nd; mb_flag := f; mb_weight := w; mb_timeout := t |}.

(** The rows of every column at the indices [ind]. *)
Definition rows_at (rb : buffer) (ind : list nat) : minibatch := {|
  mb_state := map (fun i => nth i (state rb) []) ind;
  mb_action := map (fun i => nth i (action rb) []) ind;
  mb_next_state := map (fun i => nth i (next_state rb) []) ind;
  mb_reward := map (fun i => nth i (reward rb) 0) ind;
  mb_not_done := map (fun i => nth i (not_done rb) 0) ind;
  mb_flag := map (fun i => nth i (flag rb) 0) ind;
  mb_weight := map (fun i => nth i (weight rb) 0) ind;
  mb_timeout := map (fun i => nth i (timeout rb) 0) ind |}.

(** A dataset produced by the splitter: every column has one row count. *)
Definition wf_d4rl (ds : d4rl) : Prop :=
  let n := length (observations ds) in
  length (actions ds) = n /\ length (next_observations ds) = n /\
  length (rewards ds) = n /\ length (terminals ds) = n /\
  length (flags ds) = n /\ length (timeouts ds) = n.

(** Buffers the program can build. *)
Inductive reachable : buffer -> Prop :=
| reach_init sd ad m : reachable (init sd ad m)
| reach_convert rb ds : reachable rb -> wf_d4rl ds -> reachable (convert_d4rl rb ds)
| reach_normalize rb mean std : reachable rb -> reachable (normalize_states rb mean std)
| reach_add rb other : reachable rb -> reachable other -> reachable (add_transitions rb other).

(** Buffers that were only constructed, and possibly normalised since. *)
Inductive constructed_only : buffer -> Prop :=
| co_init sd ad m : constructed_only (init sd ad m)
| co_normalize rb mean std : constructed_only rb -> constructed_only (normalize_states rb mean std).

(** Every column has [L] rows. *)
Definition columns_have (L : nat) (rb : buffer) : Prop :=
  length (state rb) = L /\ length (action rb) = L /\ length (next_state rb) = L /\
  length (reward rb) = L /\ length (not_done rb) = L /\ length (flag rb) = L /\
  length (weight rb) = L /\ length (timeout rb) = L.

End Buffer.

(** ** Trajectory splitting (lines 145-278) *)
Module Splitter.
Local Open Scope Q_scope.

(** One row of the raw D4RL table. *)
Record raw : Type := {
  r_obs : list Q; r_act : list Q; r_rew : Q; r_term : bool; r_tout : bool
}.

(** One transition appended to the current trajectory at step [i]. *)
Record step : Type := {
  s_obs : list Q; s_next_obs : list Q; s_act : list Q; s_rew : Q;
  s_done : bool; s_tout : bool
}.

Definition mk_step (r r' : raw) : step :=
  {| s_obs := r_obs r; s_next_obs := r_obs r'; s_act := r_act r; s_rew := r_rew r;
     s_done := r_term r; s_tout := r_tout r |}.

(** [traj[-1].append(x)] *)
Definition append_last {A : Type} (trajs : list (list A)) (x : A) : list (list A) :=
  removelast trajs ++ [last trajs [] ++ [x]].

(** Lines 155-172: the loop over [i] in [range(n - 1)], i.e. over the pairs
    (row i, row i+1); a new empty trajectory is opened after every terminal or
    timeout. *)
Definition collect (terminate_on_end : bool) (ds : list raw) : list (list step) :=
  fold_left
    (fun trajs (rr : raw * raw) =>
       let trajs := append_last trajs (mk_step (fst rr) (snd rr)) in
       if negb terminate_on_end && (r_tout (fst rr) || r_term (fst rr))
       then trajs ++ [[]] else trajs)
    (combine ds (tl ds)) [[]].

Definition trajectory_count (ds : list raw) : nat := length (collect false ds).

(** [np.concatenate(trajectories, 0)] on trajectories of state or action
    vectors: no trajectory at all, or an empty trajectory (shape (0,)) next to
    a non-empty one (shape (k, d)), is a [ValueError]. *)
Definition concat_rows (ts : list (list (list Q))) : except (list (list Q)) :=
  match ts with
  | [] => Raise ValueError
  | _ =>
      if existsb (fun t => match t with [] => true | _ => false end) ts
         && existsb (fun t => match t with [] => false | _ => true end) ts
      then Raise ValueError else Ok (concat ts)
  end.

(** The same on trajectories of scalars, all of shape (k,). *)
Definition concat_scalars {A : Type} (ts : list (list A)) : except (list A) :=
  match ts with
  | [] => Raise ValueError
  | _ => Ok (concat ts)
  end.

Record dataset : Type := {
  observations : list (list Q); actions : list (list Q);
  next_observations : list (list Q); rewards : list Q;
  terminals : list bool; timeouts : list bool
}.

Definition build (sel : list (list step)) : except dataset :=
  o <- concat_rows (map (map s_obs) sel) ;;
  a <- concat_rows (map (map s_act) sel) ;;
  no <- concat_rows (map (map s_next_obs) sel) ;;
  r <- concat_scalars (map (map s_rew) sel) ;;
  d <- concat_scalars (map (map s_done) sel) ;;
  t <- concat_scalars (map (map s_tout) sel) ;;
  Ok {| observations := o; actions := a; next_observations := no; rewards := r;
        terminals := d; timeouts := t |}.

Definition pick (trajs : list (list step)) (inds : list nat) : list (list step) :=
  map (fun i => nth i trajs []) inds.

(** Lines 225-278. *)
Definition dataset_m_trajs (ds : list raw) (m : nat) : except dataset :=
  let trajs := collect false ds in
  let inds := firstn m (seq 0 (length trajs)) in
  build (pick trajs inds).

(** Lines 145-221.  [inds_succ[-split_x:]] is the last [split_x] indices (all
    of them when [split_x] exceeds the length); [set(inds_succ) - set(inds_s)]
    is iterated in increasing order, as CPython does for a set of small
    integers.  [None] stands for the empty dictionary [{}]. *)
Definition dataset_split_expert (ds : list raw) (split_x exp_num : nat)
  : except (dataset * option dataset) :=
  let trajs := collect false ds in
  let inds_all := seq 0 (length trajs) in
  let inds_succ := firstn exp_num inds_all in
  let inds_s := if 0 <? split_x then skipn (length inds_succ - split_x) inds_succ else [] in
  let inds_e := filter (fun i => negb (existsb (Nat.eqb i) inds_s)) inds_succ in
  de <- build (pick trajs inds_e) ;;
  match pick trajs inds_s with
  | [] => Ok (de, None)
  | sel_s => dsx <- build sel_s ;; Ok (de, Some dsx)
  end.

End Splitter.

(** ** Data selection: [Model.select_data] (lines 493-525) *)
Module Selector.
Import Buffer.
Local Open Scope Q_scope.

(** The fitted discriminator's score of one (state, action) row. *)
Definition score : Type := list Q -> list Q -> Q.

(** [Discriminator.forward(state, action)] on a batch, shape (B,1) squeezed. *)
Definition disc_forward (D : score) (Sb Ab : list (list Q)) : except (list Q) :=
  if (length Sb =? length Ab)%nat then Ok (map2 D Sb Ab) else Raise RuntimeError.

(** A call of [self.discriminator] with positional arguments [args]:
    [nn.Module.__call__] passes them on to [forward(self, state, action)],
    which takes exactly two. *)
Definition disc_call (D : score) (args : list (list (list Q))) : except (list Q) :=
  match args with
  | [Sb; Ab] => disc_forward D Sb Ab
  | _ => Raise TypeError
  end.

(** [torch.squeeze(d >= bar)] *)
Definition ge_bar (bar : Q) (d : list Q) : list bool := map (fun x => Qle_bool bar x) d.

(** [replay_buffer_s.not_done[-1] = 0] *)
Definition set_last_zero (l : list Q) : except (list Q) :=
  match l with
  | [] => Raise IndexError
  | _ => Ok (removelast l ++ [0])
  end.

(** [torch.where((not_done == 0) | (timeout == 1))[0] + 1] *)
Definition done_of (nd to : list Q) : except (list nat) :=
  if (length nd =? length to)%nat then
    Ok (map S (filter (fun i => Qeq_bool (nth i nd 0) 0 || Qeq_bool (nth i to 0) 1)
                      (seq 0 (length nd))))
  else Raise RuntimeError.

(** [index[lo:hi] = False] *)
Definition zero_range (lo hi : nat) (l : list bool) : list bool :=
  map2 (fun i b => if (lo <=? i) && (i <? hi) then false else b)%nat (seq 0 (length l)) l.

(** Lines 509-512: the inner loop over [end in done], from [start]. *)
Fixpoint zero_heads (k start : nat) (done : list nat) (index : list bool) : list bool :=
  match done with
  | [] => index
  | e :: done' => zero_heads k e done' (zero_range start (Nat.min e (start + k + 1)) index)
  end.

(** Line 513: [mask[:-(k + 1)] |= index[k + 1:]]. *)
Definition or_shift (mask index : list bool) (k : nat) : except (list bool) :=
  if (length mask =? length index)%nat then
    Ok (map2 (fun i m => if (i + k + 1 <? length mask)%nat then m || nth (i + k + 1) index false
                         else m)
             (seq 0 (length mask)) mask)
  else Raise RuntimeError.

(** [x < y] on rationals. *)
Definition Qlt_bool (x y : Q) : bool := negb (Qle_bool y x).

(** Line 514: [weight[mask & (weight < weight_decay), :] = weight_decay]. *)
Definition assign_weights (mask : list bool) (w : list Q) (wd : Q) : except (list Q) :=
  if (length mask =? length w)%nat then
    Ok (map2 (fun m x => if m && Qlt_bool x wd then wd else x) mask w)
  else Raise IndexError.

Record sel_state : Type := {
  sel_mask : list bool;
  sel_weight : list Q;
  sel_wd : Q
}.

(** Lines 508-515: iteration [k] of the rollback loop.  On a one-row buffer
    [torch.squeeze] leaves 0-dim tensors, which the slicing of lines 511 and
    513 rejects with IndexError. *)
Definition rollback_iter (D : score) (bar : Q) (Sb Ab : list (list Q)) (done : list nat)
    (decay : Q) (k : nat) (st : sel_state) : except sel_state :=
  d <- disc_call D [Sb; Ab] ;;
  if (length d =? 1)%nat then Raise IndexError else
  let index := zero_heads k 0 done (ge_bar bar d) in
  mask <- or_shift (sel_mask st) index k ;;
  w <- assign_weights mask (sel_weight st) (sel_wd st) ;;
  Ok {| sel_mask := mask; sel_weight := w; sel_wd := sel_wd st * decay |}.

(** Line 507: [for k in range(0, rollback)], run over the list of [k]s. *)
Fixpoint rollback_loop (D : score) (bar : Q) (Sb Ab : list (list Q)) (done : list nat)
    (decay : Q) (ks : list nat) (st : sel_state) : except sel_state :=
  match ks with
  | [] => Ok st
  | k :: ks' =>
      st' <- rollback_iter D bar Sb Ab done decay k st ;;
      rollback_loop D bar Sb Ab done decay ks' st'
  end.

(** [col[mask, :]] *)
Definition filter_mask {A : Type} (mask : list bool) (col : list A) : list A :=
  map snd (filter fst (combine mask col)).

(** Lines 497-525, from the base mask on: anchoring, weight reset, rollback
    loop and filtering.  The [timeout] column is not filtered. *)
Definition select_from_mask (D : score) (rb : buffer) (mask : list bool) (bar : Q)
    (rollback : nat) (decay weight_init : Q) : except buffer :=
  nd <- set_last_zero (not_done rb) ;;
  done <- done_of nd (timeout rb) ;;
  let w := map (fun x => x - 1) (weight rb) in
  st <- rollback_loop D bar (state rb) (action rb) done decay (seq 0 rollback)
          {| sel_mask := mask; sel_weight := w; sel_wd := weight_init |} ;;
  let m := sel_mask st in
  let st' := filter_mask m (state rb) in
  Ok {| max_size := max_size rb; ptr := ptr rb;
        state := st';
        action := filter_mask m (action rb);
        next_state := filter_mask m (next_state rb);
        reward := filter_mask m (reward rb);
        not_done := filter_mask m nd;
        flag := filter_mask m (flag rb);
        weight := filter_mask m (sel_weight st);
        timeout := timeout rb;
        size := length st' |}.

(** Lines 493-525.  Line 496 scores the next states with
    [self.discriminator(next_state)]. *)
Definition select_data (D : score) (rb : buffer) (bar : Q) (rollback : nat)
    (decay weight_init : Q) : except buffer :=
  d <- disc_call D [next_state rb] ;;
  select_from_mask D rb (ge_bar bar d) bar rollback decay weight_init.

End Selector.

(** ** Assembling D_e and D_s: [get_datasets] (lines 131-141) *)
Module Datasets.
Import Splitter.
Local Open Scope Q_scope.

(** Line 166 (and 198): the row, or the step made from it, ends its episode,
    [timeouts[i] | terminals[i]]. *)
Definition row_ends (r : raw) : bool := r_tout r || r_term r.
Definition step_ends (s : step) : bool := s_tout s || s_done s.

(** A dataset of the splitter with the ['flag'] column that [get_datasets]
    adds: [np.zeros_like] or [np.ones_like] of the boolean [terminals]. *)
Record fdataset : Type := {
  fbase : dataset;
  fflag : list bool
}.

Definition with_flag (d : dataset) (b : bool) : fdataset :=
  {| fbase := d; fflag := repeat b (length (terminals d)) |}.

(** [np.concatenate([x, y], 0)] on two state or action arrays: an empty array
    (shape (0,)) next to a non-empty one (shape (k, d)) is a [ValueError], and
    so are rows of two widths. *)
Definition concat2_rows (x y : list (list Q)) : except (list (list Q)) :=
  match x, y with
  | [], [] => Ok []
  | [], _ :: _ | _ :: _, [] => Raise ValueError
  | r :: _, r' :: _ => if (length r =? length r')%nat then Ok (x ++ y) else Raise ValueError
  end.

(** Lines 131-141.  [None] from [dataset_split_expert] is the empty
    dictionary [{}]; the key loop concatenates every column of [dataset_s],
    the flag included. *)
Definition get_datasets (dataset_e_raw dataset_s_raw : list raw) (num_e num_s_e num_s_s : nat)
  : except (fdataset * fdataset) :=
  ds <- dataset_m_trajs dataset_s_raw num_s_s ;;
  let dataset_s := with_flag ds false in
  r <- dataset_split_expert dataset_e_raw num_s_e (num_e + num_s_e) ;;
  let dataset_e := with_flag (fst r) true in
  match snd r with
  | None => Ok (dataset_e, dataset_s)
  | Some x =>
      let dataset_s_extra := with_flag x true in
      o <- concat2_rows (observations ds) (observations x) ;;
      a <- concat2_rows (actions ds) (actions x) ;;
      no <- concat2_rows (next_observations ds) (next_observations x) ;;
      Ok (dataset_e,
          {| fbase := {| observations := o; actions := a; next_observations := no;
                         rewards := rewards ds ++ rewards x;
                         terminals := terminals ds ++ terminals x;
                         timeouts := timeouts ds ++ timeouts x |};
             fflag := fflag dataset_s ++ fflag dataset_s_extra |})
  end.

(** [torch.FloatTensor] of a boolean column. *)
Definition b2q (b : bool) : Q := if b then 1 else 0.

(** The dictionary as [ReplayBuffer.convert_d4rl] reads it (lines 819-822):
    boolean columns become 0./1. *)
Definition to_d4rl (d : fdataset) : Buffer.d4rl := {|
  Buffer.observations := observations (fbase d);
  Buffer.actions := actions (fbase d);
  Buffer.next_observations := next_observations (fbase d);
  Buffer.rewards := rewards (fbase d);
  Buffer.terminals := map b2q (terminals (fbase d));
  Buffer.flags := map b2q (fflag d);
  Buffer.timeouts := map b2q (timeouts (fbase d)) |}.

End Datasets.

(** ** Actor (lines 347-379) *)
Module Actor.
Local Open Scope R_scope.

Definition MEAN_MIN : R := -9.
Definition MEAN_MAX : R := 9.
Definition LOG_STD_MIN : R := -5.
Definition LOG_STD_MAX : R := 2.
Definition EPS : R := / 10 ^ 7.

Record params : Type := {
  fc1_W : list (list R); fc1_b : list R;
  fc2_W : list (list R); fc2_b : list R;
  mu_W : list (list R); mu_b : list R;
  sigma_W : list (list R); sigma_b : list R
}.

(** [_get_outputs] on one state row: the mean and the scale of the Normal
    before the tanh transform, and [a_tanh_mode].  This is the computation on
    a row whose width fits the layers ([Discriminator.layer_ok]); on others
    [nn.Linear] raises. *)
Definition get_outputs (p : params) (s : list R) : list R * list R * list R :=
  let a := map Discriminator.relu (Discriminator.linear (fc1_W p) (fc1_b p) s) in
  let a := map Discriminator.relu (Discriminator.linear (fc2_W p) (fc2_b p) a) in
  let mu := Discriminator.linear (mu_W p) (mu_b p) a in
  let mu := map (fun x => Discriminator.clip x MEAN_MIN MEAN_MAX) mu in
  let log_sigma := Discriminator.linear (sigma_W p) (sigma_b p) a in
  let log_sigma := map (fun x => Discriminator.clip x LOG_STD_MIN LOG_STD_MAX) log_sigma in
  let sigma := map exp log_sigma in
  (mu, sigma, map tanh mu).

(** Line 377: [torch.clip(action, -1. + EPS, 1. - EPS)] in [get_log_density]. *)
Definition clip_action (action : list R) : list R :=
  map (fun x => Discriminator.clip x (-1 + EPS) (1 - EPS)) action.

End Actor.

(** ** Reward labelling, returns and device selection (lines 46-127) *)
Module Online.
Local Open Scope R_scope.

(** Line 84 of [sample_online]: the reward from the discriminator's score [d],
    the y-function's value [y] and [alpha]. *)
Definition online_reward (d y alpha : R) : R := 1 / (1 + d / (1 - d) / y / alpha).

(** [range(a, b)] *)
Definition py_range (a b : Z) : list Z :=
  map (fun k => (a + Z.of_nat k)%Z) (seq 0 (Z.to_nat (b - a))).

(** Lines 67-72.  [sample_online] gives [rewards] and [dones] as Python
    lists, so the loop body's [1 - dones] raises [TypeError]; [returns] is the
    list of appended values. *)
Definition cal_returns (rewards dones : list R) (discount : R) : except (list R) :=
  fold_left (fun acc (i : Z) => returns <- acc ;; Raise TypeError)
    (py_range (Z.of_nat (length rewards)) (-1)) (Ok []).

End Online.

Module Labels.
Import String.
Local Open Scope R_scope.

(** The dictionary loaded by [load_dataset_from_npy]: the observation and
    action rows, and the one-dimensional columns by key. *)
Record np_dict : Type := {
  d_obs : list (list R);
  d_act : list (list R);
  d_cols : list (string * list R)
}.

(** [dataset[key]] on a column. *)
Fixpoint lookup (k : string) (cols : list (string * list R)) : option (list R) :=
  match cols with
  | [] => None
  | (k', v) :: cols' => if String.eqb k' k then Some v else lookup k cols'
  end.

Definition set_col (k : string) (v : list R) (ds : np_dict) : np_dict := {|
  d_obs := d_obs ds; d_act := d_act ds;
  d_cols := map (fun kv => if String.eqb (fst kv) k then (k, v) else kv) (d_cols ds) |}.

Inductive error : Type :=
| Exc (e : py_exc)
| KeyError (key : string).

Definition result (A : Type) : Type := (A + error)%type.

(** [arr[i] = v] on a numpy array. *)
Definition set_at (l : list R) (i : nat) (v : R) : option (list R) :=
  if (i <? List.length l)%nat then Some (firstn i l ++ v :: skipn (S i) l) else None.

(** Lines 51-52 on row [i]: [log(d / (1 - d))] of the discriminator's score of
    the row. *)
Definition label_row (p : Discriminator.params) (o a : list R) : R :=
  let d := hd 0 (Discriminator.forward_row p o a) in
  ln (d / (1 - d)).

(** [dataset['rewards'][i] = v], the right-hand side [v] evaluated first. *)
Definition store_reward (ds : np_dict) (i : nat) (v : R) : result np_dict :=
  match lookup "rewards" (d_cols ds) with
  | None => inr (KeyError "rewards")
  | Some rw =>
      match set_at rw i v with
      | None => inr (Exc IndexError)
      | Some rw' => inl (set_col "rewards" rw' ds)
      end
  end.

(** Lines 50-52, one iteration.  The discriminator is called on the (1, d)
    rows [o] and [a]; its (1,1) output [d] (whose entry is the head of
    [forward_row p o a]) becomes [np.log(d / (1 - d))], still an array, and
    is stored into the scalar slot [dataset['rewards'][i]], after the key
    and the index are checked.  [size1_to_scalar] says whether the installed
    numpy converts a size-1 array stored into one element (deprecated since
    numpy 1.25); where it does not, or where the output has more than one
    entry, the store raises ValueError. *)
Definition relabel_step (size1_to_scalar : bool) (p : Discriminator.params)
    (acc : result np_dict) (i : nat) : result np_dict :=
  match acc with
  | inr e => inr e
  | inl ds =>
      match nth_error (d_obs ds) i, nth_error (d_act ds) i with
      | Some o, Some a =>
          match Discriminator.forward p [o] [a] with
          | Raise e => inr (Exc e)
          | Ok out =>
              match lookup "rewards" (d_cols ds) with
              | None => inr (KeyError "rewards")
              | Some rw =>
                  if (i <? List.length rw)%nat then
                    if size1_to_scalar && (List.length (List.concat out) =? 1)%nat
                    then store_reward ds i (label_row p o a)
                    else inr (Exc ValueError)
                  else inr (Exc IndexError)
              end
          end
      | _, _ => inr (Exc IndexError)
      end
  end.

(** Lines 57-58, one iteration. *)
Definition normalize_step (r_max r_min : R) (acc : result np_dict) (i : nat)
  : result np_dict :=
  match acc with
  | inr e => inr e
  | inl ds =>
      match lookup "reward" (d_cols ds) with
      | None => inr (KeyError "reward")
      | Some src =>
          match nth_error src i with
          | None => inr (Exc IndexError)
          | Some x => store_reward ds i ((x - r_min) / (r_max - r_min))
          end
      end
  end.

(** [max] and [min] of a column. *)
Definition py_max (l : list R) : result R :=
  match l with [] => inr (Exc ValueError) | x :: xs => inl (fold_left Rmax xs x) end.
Definition py_min (l : list R) : result R :=
  match l with [] => inr (Exc ValueError) | x :: xs => inl (fold_left Rmin xs x) end.

(** Lines 46-65, from the loaded dictionary [ds] on. *)
Definition label_offline_reward (size1_to_scalar : bool) (p : Discriminator.params)
    (use_reward_scaling use_offline : bool) (ds : np_dict) : result (R * np_dict) :=
  let r1 := if use_offline then inl ds
            else fold_left (relabel_step size1_to_scalar p) (seq 0 (List.length (d_obs ds))) (inl ds) in
  match r1 with
  | inr e => inr e
  | inl ds1 =>
      match lookup "rewards" (d_cols ds1) with
      | None => inr (KeyError "rewards")
      | Some rw =>
          match py_max rw, py_min rw with
          | inl r_max, inl r_min =>
              match fold_left (normalize_step r_max r_min)
                      (seq 0 (List.length (d_obs ds1))) (inl ds1) with
              | inr e => inr e
              | inl ds2 =>
                  let alpha := 1 / (r_max - r_min) in
                  inl (if use_reward_scaling then alpha else 1, ds2)
              end
          | inr e, _ => inr e
          | _, inr e => inr e
          end
      end
  end.

End Labels.

(** ** [select_free_device] (lines 100-127) *)
Module Device.
Local Open Scope Z_scope.

(** Lines 112-119: the loop over the lines of [nvidia-smi], each given by its
    parsed [index] and [memory_free]. *)
Fixpoint select_loop (lines : list (Z * Z)) (free_gpu_index : option Z) (free_memory : Z)
  : option Z * Z :=
  match lines with
  | [] => (free_gpu_index, free_memory)
  | (index, memory_free) :: rest =>
      if match free_gpu_index with None => true | Some _ => false end
         || (free_memory <? memory_free)
      then select_loop rest (Some index) memory_free
      else select_loop rest free_gpu_index free_memory
  end.

Definition select_free_gpu (lines : list (Z * Z)) : option Z * Z := select_loop lines None 0.

End Device.

(** * Properties *)

(** ** Discriminator and trainers *)
Section DiscriminatorTheorems.
Local Open Scope R_scope.

Lemma clip_bounds (x : R) :
  1/10 <= Discriminator.clip x (1/10) (9/10) <= 9/10.
Proof.
  unfold Discriminator.clip. split.
  - apply Rmin_glb; [apply Rmax_r | lra].
  - apply Rmin_r.
Qed.

Lemma forward_row_bounds (p : Discriminator.params) (s a : list R) (d : R) :
  In d (Discriminator.forward_row p s a) -> 1/10 <= d <= 9/10.
Proof.
  unfold Discriminator.forward_row. intros Hin.
  apply in_map_iff in Hin as [x [<- _]]. apply clip_bounds.
Qed.

(** C9: every score of the discriminator's forward pass lies in [0.1, 0.9],
    whatever the parameters and the inputs; hence [log d] and [log (1 - d)]
    are taken at positive arguments. *)
Theorem discriminator_output_clipped (p : Discriminator.params) (S A : list (list R))
    (out : list (list R)) :
  Discriminator.forward p S A = Ok out ->
  forall row d, In row out -> In d row -> 1/10 <= d <= 9/10 /\ 0 < d /\ 0 < 1 - d.
Proof.
  unfold Discriminator.forward. destruct (length S =? length A)%nat; [|discriminate].
  destruct (Discriminator.shapes_ok p S A); [|discriminate].
  intros Heq row d Hrow Hd. injection Heq as <-.
  unfold map2 in Hrow. apply in_map_iff in Hrow as [[s a] [<- _]].
  pose proof (forward_row_bounds p s a d Hd). lra.
Qed.

Definition p0 : Discriminator.params := {|
  Discriminator.fc1_W := []; Discriminator.fc1_b := [];
  Discriminator.fc2_W := []; Discriminator.fc2_b := [];
  Discriminator.fc3_W := [[]]; Discriminator.fc3_b := [0] |}.

Lemma discriminator_output_clipped_witness :
  exists d, Discriminator.forward p0 [[0]] [[0]] = Ok [[d]] /\
    1/10 <= d <= 9/10 /\ 0 < d /\ 0 < 1 - d.
Proof.
  eexists. split; [reflexivity|].
  eapply (discriminator_output_clipped p0 [[0]] [[0]]);
    [reflexivity | left; reflexivity | left; reflexivity].
Defined.

Lemma map2_plus_map (f : R -> R) (g : R -> R) (xs ys : list R) :
  map2 Rplus (map f xs) (map g ys) = map2 (fun x y => f x + g y) xs ys.
Proof.
  revert ys. induction xs as [|x xs IH]; intros [|y ys]; simpl; try reflexivity.
  unfold map2 in *. simpl. f_equal. apply IH.
Qed.

Lemma map2_plus_map2 (f : R -> R) (g : R -> R -> R) (xs ys : list R) :
  map2 Rplus (map f xs) (map2 g ys xs) = map2 (fun x y => f x + g y x) xs ys.
Proof.
  revert ys. induction xs as [|x xs IH]; intros [|y ys]; simpl; try reflexivity.
  unfold map2 in *. simpl. f_equal. apply IH.
Qed.

Lemma map2_ext {A B C : Type} (f g : A -> B -> C) (xs : list A) (ys : list B) :
  (forall x y, f x y = g x y) -> map2 f xs ys = map2 g xs ys.
Proof.
  intros H. unfold map2. apply map_ext. intros [x y]. apply H.
Qed.

Lemma d_loss_is_spec (no_pu_learning : bool) (eta : R) (d_e d_s : list (list R)) :
  Trainer.d_loss no_pu_learning eta d_e d_s = Trainer.spec_d_loss no_pu_learning eta d_e d_s.
Proof.
  unfold Trainer.d_loss, Trainer.spec_d_loss. destruct no_pu_learning.
  - rewrite map2_plus_map. apply f_equal, map2_ext. intros. ring.
  - rewrite map2_plus_map2. apply f_equal, map2_ext. intros. unfold Rdiv. ring.
Qed.

(** C1: every step of [train_discriminator] computes, at the parameters of
    that step ([step_params]: the initial ones, then the optimizer's result
    after each step), the loss [mean(-log d_e - log(1 - d_s))] when [no_pu] is
    set and [mean(-log d_e - log(1 - d_s)/eta + log(1 - d_e))] otherwise, with
    [d_e], [d_s] the discriminator's outputs at those parameters on the two
    minibatches of the step. *)
Theorem train_discriminator_step_losses opt no_pu_learning eta p batches losses p' :
  Trainer.train_discriminator opt no_pu_learning eta p batches = Ok (losses, p') ->
  Forall2 (fun (bq : (Trainer.batch * Trainer.batch) * Discriminator.params) (l : R) =>
             let '((be, bs), q) := bq in
             exists d_e d_s,
               Discriminator.forward q (fst be) (snd be) = Ok d_e /\
               Discriminator.forward q (fst bs) (snd bs) = Ok d_s /\
               l = Trainer.spec_d_loss no_pu_learning eta d_e d_s)
          (combine batches (Trainer.step_params opt no_pu_learning eta p batches)) losses.
Proof.
  revert p losses p'.
  induction batches as [|[be bs] rest IH]; intros p losses p' H; simpl in H.
  - injection H as <- _. constructor.
  - unfold Trainer.step_loss at 1 in H.
    destruct (Discriminator.forward p (fst be) (snd be)) as [d_e|] eqn:He; [|discriminate].
    simpl in H.
    destruct (Discriminator.forward p (fst bs) (snd bs)) as [d_s|] eqn:Hs; [|discriminate].
    simpl in H.
    destruct (Trainer.train_discriminator opt no_pu_learning eta _ rest) as [[ls pf]|] eqn:Hr;
      [|discriminate].
    simpl in H. injection H as <- _.
    simpl. constructor.
    + exists d_e, d_s. rewrite <- d_loss_is_spec. auto.
    + eapply IH. exact Hr.
Qed.

Definition p1 : Discriminator.params := {|
  Discriminator.fc1_W := []; Discriminator.fc1_b := [];
  Discriminator.fc2_W := []; Discriminator.fc2_b := [];
  Discriminator.fc3_W := [[]]; Discriminator.fc3_b := [1] |}.

Definition batches2 : list (Trainer.batch * Trainer.batch) :=
  [(([[0]], [[0]]), ([[1]], [[1]])); (([[2]], [[2]]), ([[3]], [[3]]))].

Lemma train_discriminator_step_losses_witness :
  exists losses,
    Trainer.train_discriminator (fun _ _ => p1) false (1/2) p0 batches2 = Ok (losses, p1) /\
    Trainer.step_params (fun _ _ => p1) false (1/2) p0 batches2 = [p0; p1] /\
    Forall2 (fun (bq : (Trainer.batch * Trainer.batch) * Discriminator.params) (l : R) =>
               let '((be, bs), q) := bq in
               exists d_e d_s,
                 Discriminator.forward q (fst be) (snd be) = Ok d_e /\
                 Discriminator.forward q (fst bs) (snd bs) = Ok d_s /\
                 l = Trainer.spec_d_loss false (1/2) d_e d_s)
            (combine batches2 (Trainer.step_params (fun _ _ => p1) false (1/2) p0 batches2))
            losses.
Proof.
  eexists. split; [reflexivity|]. split; [reflexivity|].
  eapply (train_discriminator_step_losses (fun _ _ => p1) false (1/2) p0). reflexivity.
Defined.

(** C7: at a D_s minibatch whose weights differ, the policy loss of
    [train_policy] is not the per-sample weighted negative log-likelihood:
    the (B,) summed log densities times the (B,1) weights broadcast to a
    (B,B) matrix.  Here [alpha = exp 0 = 1], the alpha loss is as the spec
    writes it, the code's loss is 3/4 and the per-sample one is 1. *)
Theorem train_policy_loss_broadcast :
  let r := Trainer.train_policy_losses true 1 0 (1/100)
             [[-2]; [0]] [[0]; [0]] [[0]; [0]] [[1]; [1/2]] in
  Trainer.ps_alpha r = 1 /\ 0 < Trainer.ps_alpha r /\
  Trainer.ps_alpha_loss r =
    Some (exp 0 * (Trainer.mean (Trainer.sum_dim1 [[0]; [0]]) + 1/100
                   - Trainer.mean (Trainer.sum_dim1 [[0]; [0]]))) /\
  Trainer.ps_p_loss r = 3/4 /\
  Trainer.spec_p_loss (Trainer.ps_alpha r) [[-2]; [0]] [[0]; [0]] [[1]; [1/2]] = 1.
Proof.
  cbv zeta. unfold Trainer.train_policy_losses, Trainer.alpha_and_alpha_loss. simpl.
  rewrite exp_0.
  unfold Trainer.spec_p_loss, Trainer.mean, Trainer.sum_dim1, Trainer.bcast_mul, map2.
  simpl. repeat split; try reflexivity; try lra; field.
Qed.

End DiscriminatorTheorems.

(** ** Replay buffer *)
Section BufferTheorems.
Import Buffer.
Local Open Scope nat_scope.

Lemma constructed_only_shape (rb : buffer) :
  constructed_only rb -> size rb = 0 /\ columns_have (max_size rb) rb.
Proof.
  induction 1 as [sd ad m | rb mean std _ [Hs (H1 & H2 & H3 & H4 & H5 & H6 & H7 & H8)]].
  - unfold columns_have; simpl. rewrite !repeat_length. auto 10.
  - unfold columns_have; simpl. rewrite !length_map. auto 10.
Qed.

Lemma reachable_shape (rb : buffer) :
  reachable rb ->
  exists L, columns_have L rb /\
    (size rb = L \/ (constructed_only rb /\ size rb = 0 /\ L = max_size rb)).
Proof.
  induction 1 as [sd ad m | rb ds _ _ Hwf | rb mean std _ IH | rb other _ IH1 _ IH2].
  - exists m. unfold columns_have; simpl. rewrite !repeat_length.
    split; [auto 10|]. right. split; [constructor|auto].
  - exists (length (observations ds)).
    destruct Hwf as (Ha & Hn & Hr & Ht & Hf & Ho).
    unfold columns_have; simpl. rewrite length_map, repeat_length. auto 10.
  - destruct IH as [L [(H1 & H2 & H3 & H4 & H5 & H6 & H7 & H8) Hs]].
    exists L. unfold columns_have; simpl. rewrite !length_map.
    split; [auto 10|]. destruct Hs as [Hs|[Hc Hs]]; [left; exact Hs|].
    right. split; [constructor; exact Hc|exact Hs].
  - destruct IH1 as [L1 [(H1 & H2 & H3 & H4 & H5 & H6 & H7 & H8) _]].
    destruct IH2 as [L2 [(K1 & K2 & K3 & K4 & K5 & K6 & K7 & K8) _]].
    exists (L1 + L2)%nat. unfold columns_have; simpl. rewrite !length_app. lia.
Qed.

(** C3 (amended): every buffer the program builds keeps its eight columns at
    one common length [L]; [size] equals [L], except for a buffer that was
    only constructed (and possibly normalised), whose columns are
    pre-allocated to [max_size] while [size] is 0; and every such buffer is
    in that case. *)
Theorem buffer_columns_common_length (rb : buffer) :
  reachable rb ->
  exists L, columns_have L rb /\
    (size rb = L \/ (constructed_only rb /\ size rb = 0 /\ L = max_size rb)) /\
    (constructed_only rb -> size rb = 0 /\ L = max_size rb).
Proof.
  intros Hr. destruct (reachable_shape rb Hr) as [L [HL Hs]].
  exists L. split; [exact HL|]. split; [exact Hs|].
  intros Hc. destruct (constructed_only_shape rb Hc) as [H0 HM].
  split; [exact H0|]. destruct HL as [HL _]. destruct HM as [HM _]. congruence.
Qed.

Lemma buffer_columns_common_length_witness :
  exists L, columns_have L (normalize_states (init 1 1 2) [0%Q] [1%Q]) /\
    (size (normalize_states (init 1 1 2) [0%Q] [1%Q]) = L \/
     (constructed_only (normalize_states (init 1 1 2) [0%Q] [1%Q]) /\
      size (normalize_states (init 1 1 2) [0%Q] [1%Q]) = 0 /\
      L = max_size (normalize_states (init 1 1 2) [0%Q] [1%Q]))) /\
    (constructed_only (normalize_states (init 1 1 2) [0%Q] [1%Q]) ->
     size (normalize_states (init 1 1 2) [0%Q] [1%Q]) = 0 /\
     L = max_size (normalize_states (init 1 1 2) [0%Q] [1%Q])).
Proof.
  apply (buffer_columns_common_length (normalize_states (init 1 1 2) [0%Q] [1%Q])).
  constructor. constructor.
Defined.

(** C3: a freshly constructed buffer has columns longer than its [size]. *)
Lemma buffer_init_columns_exceed_size :
  length (state (init 1 1 2)) <> size (init 1 1 2).
Proof. simpl. discriminate. Qed.

Lemma gather_ok {A : Type} (col : list A) (ind : list nat) (d : A) :
  Forall (fun i => i < length col) ind -> gather col ind = Ok (map (fun i => nth i col d) ind).
Proof.
  induction 1 as [|i ind Hi _ IH]; simpl; [reflexivity|].
  destruct (nth_error col i) as [x|] eqn:E.
  - rewrite IH. simpl. rewrite (nth_error_nth col i d E). reflexivity.
  - apply nth_error_None in E. lia.
Qed.

Lemma randint_ok (hi n : nat) (rng : nat -> nat) :
  1 <= hi ->
  randint 0 hi n rng = Ok (map (fun j => rng j mod hi) (seq 0 n)) /\
  Forall (fun i => i < hi) (map (fun j => rng j mod hi) (seq 0 n)).
Proof.
  intros H. unfold randint.
  replace (0 <? hi) with true by (symmetry; apply Nat.ltb_lt; lia).
  rewrite Nat.sub_0_r. split; [reflexivity|].
  apply Forall_forall. intros i Hi. apply in_map_iff in Hi as [j [<- _]].
  apply Nat.mod_upper_bound. lia.
Qed.

Lemma Forall_lt_weaken (ind : list nat) (a b : nat) :
  a = b -> Forall (fun i => i < a) ind -> Forall (fun i => i < b) ind.
Proof. intros ->. auto. Qed.

(** C10: [sample] on a buffer with [size = 0] (a freshly constructed one in
    particular) raises for every batch size, since [torch.randint(0, 0, ...)]
    has an empty range; on a buffer the program builds with [size >= 1] it
    succeeds for every batch size and every draw of the generator, and each
    of the [batch_size] rows is read at an index below [size]. *)
Theorem sample_requires_nonempty (rb : buffer) :
  reachable rb ->
  (size rb = 0 -> forall batch_size rng, sample rb batch_size rng = Raise RuntimeError) /\
  (1 <= size rb -> forall batch_size rng, exists ind,
      randint 0 (size rb) batch_size rng = Ok ind /\
      length ind = batch_size /\ Forall (fun i => i < size rb) ind /\
      sample rb batch_size rng = Ok (rows_at rb ind)).
Proof.
  intros Hr. split.
  - intros H0 bs rng. unfold sample, randint. rewrite H0. reflexivity.
  - intros H1 bs rng.
    destruct (reachable_shape rb Hr)
      as [L [(C1 & C2 & C3 & C4 & C5 & C6 & C7 & C8) [HL|[_ [HL _]]]]]; [|lia].
    destruct (randint_ok (size rb) bs rng H1) as [Hi Hlt].
    eexists. split; [exact Hi|]. split; [rewrite length_map, length_seq; reflexivity|].
    split; [exact Hlt|].
    unfold sample. rewrite Hi. simpl.
    rewrite (gather_ok (state rb) _ []) by (eapply Forall_lt_weaken; [|exact Hlt]; lia).
    simpl. rewrite (gather_ok (action rb) _ []) by (eapply Forall_lt_weaken; [|exact Hlt]; lia).
    simpl. rewrite (gather_ok (next_state rb) _ []) by (eapply Forall_lt_weaken; [|exact Hlt]; lia).
    simpl. rewrite (gather_ok (reward rb) _ 0%Q) by (eapply Forall_lt_weaken; [|exact Hlt]; lia).
    simpl. rewrite (gather_ok (not_done rb) _ 0%Q) by (eapply Forall_lt_weaken; [|exact Hlt]; lia).
    simpl. rewrite (gather_ok (flag rb) _ 0%Q) by (eapply Forall_lt_weaken; [|exact Hlt]; lia).
    simpl. rewrite (gather_ok (weight rb) _ 0%Q) by (eapply Forall_lt_weaken; [|exact Hlt]; lia).
    simpl. rewrite (gather_ok (timeout rb) _ 0%Q) by (eapply Forall_lt_weaken; [|exact Hlt]; lia).
    reflexivity.
Qed.

Definition ds1 : d4rl := {|
  observations := [[0]; [1]]%Q; actions := [[0]; [0]]%Q; next_observations := [[1]; [2]]%Q;
  rewards := [0; 0]%Q; terminals := [0; 1]%Q; flags := [0; 0]%Q; timeouts := [0; 0]%Q |}.

Lemma sample_requires_nonempty_witness :
  sample (init 1 1 4) 3 (fun j => j) = Raise RuntimeError /\
  exists ind,
    randint 0 (size (convert_d4rl (init 1 1 4) ds1)) 3 (fun j => j) = Ok ind /\
    length ind = 3 /\ Forall (fun i => i < size (convert_d4rl (init 1 1 4) ds1)) ind /\
    sample (convert_d4rl (init 1 1 4) ds1) 3 (fun j => j)
      = Ok (rows_at (convert_d4rl (init 1 1 4) ds1) ind).
Proof.
  split.
  - apply (proj1 (sample_requires_nonempty (init 1 1 4) (reach_init 1 1 4))). reflexivity.
  - apply (proj2 (sample_requires_nonempty (convert_d4rl (init 1 1 4) ds1)
                   (reach_convert _ ds1 (reach_init 1 1 4)
                      ltac:(unfold wf_d4rl; simpl; repeat split)))).
    simpl. lia.
Defined.

End BufferTheorems.

(** ** Trajectory splitting *)
Section SplitterTheorems.
Import Splitter.
Local Open Scope nat_scope.

(** C8 (amended): neither splitter checks the requested count; a count at
    or above the number of trajectories selects all of them, exactly as the
    count equal to it does. *)
Theorem split_counts_clamped (ds : list raw) (m exp_num : nat) :
  trajectory_count ds <= m -> trajectory_count ds <= exp_num ->
  dataset_m_trajs ds m = dataset_m_trajs ds (trajectory_count ds) /\
  forall split_x,
    dataset_split_expert ds split_x exp_num
    = dataset_split_expert ds split_x (trajectory_count ds).
Proof.
  unfold trajectory_count, dataset_m_trajs, dataset_split_expert. intros Hm He.
  rewrite (firstn_all2 (n := m)) by (rewrite length_seq; exact Hm).
  rewrite (firstn_all2 (n := exp_num)) by (rewrite length_seq; exact He).
  rewrite (firstn_all2 (n := length (collect false ds))) by (rewrite length_seq; lia).
  split; reflexivity.
Qed.

Definition row (o : Q) (term : bool) : raw :=
  {| r_obs := [o]; r_act := [0%Q]; r_rew := 0%Q; r_term := term; r_tout := false |}.

(** Four rows, two episodes: the loop over [range(n - 1)] yields two
    trajectories, of two steps and of one step. *)
Definition ds4 : list raw := [row 0 false; row 1 true; row 2 false; row 3 true].

Lemma split_counts_clamped_witness :
  trajectory_count ds4 <= 3 /\ trajectory_count ds4 <= 3 /\
  dataset_m_trajs ds4 3 = dataset_m_trajs ds4 (trajectory_count ds4) /\
  dataset_split_expert ds4 1 3 = dataset_split_expert ds4 1 (trajectory_count ds4).
Proof.
  assert (H : trajectory_count ds4 <= 3) by (vm_compute; lia).
  destruct (split_counts_clamped ds4 3 3 H H) as [H1 H2].
  split; [exact H|]. split; [exact H|]. split; [exact H1|]. apply H2.
Defined.

(** C8: with 2 trajectories, asking for 3 raises no error in either
    splitter. *)
Lemma split_counts_no_error :
  trajectory_count ds4 = 2 /\
  (exists d, dataset_m_trajs ds4 3 = Ok d) /\
  (exists r, dataset_split_expert ds4 1 3 = Ok r).
Proof.
  split; [vm_compute; reflexivity|].
  split; eexists; vm_compute; reflexivity.
Qed.

End SplitterTheorems.

(** ** Data selection *)
Section SelectorTheorems.
Import Buffer Selector.
Local Open Scope Q_scope.

(** C2: [select_data] never gets to score anything: line 496 calls the
    discriminator with the next states alone, and [forward] requires
    [(state, action)], so every call raises [TypeError]. *)
Theorem select_data_raises (D : score) (rb : buffer) (bar : Q) (rollback : nat)
    (decay weight_init : Q) :
  select_data D rb bar rollback decay weight_init = Raise TypeError.
Proof. reflexivity. Qed.

(** The scenario: one 3-step trajectory; only the last transition's
    (state, action) pair scores at least 0.5. *)
Definition ds3 : d4rl := {|
  observations := [[0]; [1]; [2]]; actions := [[0]; [0]; [0]];
  next_observations := [[1]; [2]; [3]]; rewards := [0; 0; 0];
  terminals := [0; 0; 1]; flags := [0; 0; 0]; timeouts := [0; 0; 0] |}.

Definition rb3 : buffer := convert_d4rl (init 1 1 4) ds3.

Definition D3 : score := fun s _ => if Qeq_bool (hd 0 s) 2 then 9#10 else 1#10.

(** C4: on the scenario, [select_data] raises; and its rollback-and-filter
    stage, given the base mask that retains only the last transition, gives
    the weights [0.5, 1.0, 1.0], not [0.5, 0.5, 1.0]. *)
Lemma select_data_scenario_counterexample :
  select_data D3 rb3 (1#2) 2 (1#2) 1 = Raise TypeError /\
  exists rb', select_from_mask D3 rb3 [false; false; true] (1#2) 2 (1#2) 1 = Ok rb' /\
    weight rb' = [1#2; 1; 1] /\ weight rb' <> [1#2; 1#2; 1].
Proof.
  split; [reflexivity|].
  eexists. split; [vm_compute; reflexivity|]. split; [reflexivity|]. discriminate.
Qed.

(** C4 (amended): the rollback-and-filter stage of [select_data], with
    bar 0.5, rollback 2, decay 0.5 and weight_init 1.0, on one 3-step
    trajectory whose base mask and current-pair scores pass the bar only at
    the last transition, keeps all three transitions with weights
    [0.5, 1.0, 1.0]. *)
Theorem select_scenario_weights :
  exists rb', select_from_mask D3 rb3 [false; false; true] (1#2) 2 (1#2) 1 = Ok rb' /\
    size rb' = 3%nat /\ weight rb' = [1#2; 1; 1].
Proof. eexists. split; [vm_compute; reflexivity|]. split; reflexivity. Qed.


Lemma rollback_loop_app D bar Sb Ab done decay ks1 ks2 st :
  rollback_loop D bar Sb Ab done decay (ks1 ++ ks2) st
  = (st' <- rollback_loop D bar Sb Ab done decay ks1 st ;;
     rollback_loop D bar Sb Ab done decay ks2 st').
Proof.
  revert st. induction ks1 as [|k ks1 IH]; intros st; simpl; [reflexivity|].
  destruct (rollback_iter D bar Sb Ab done decay k st); simpl; [apply IH|reflexivity].
Qed.

Lemma rollback_iter_wd D bar Sb Ab done decay k st st' :
  rollback_iter D bar Sb Ab done decay k st = Ok st' -> sel_wd st' = sel_wd st * decay.
Proof.
  unfold rollback_iter.
  destruct (disc_call D [Sb; Ab]); simpl; [|discriminate].
  destruct (length (A:=Q) _ =? 1)%nat; [discriminate|].
  destruct (or_shift _ _ k); simpl; [|discriminate].
  destruct (assign_weights _ _ _); simpl; [|discriminate].
  intros H. injection H as <-. reflexivity.
Qed.

Lemma Qpower_succ_nat (q : Q) (n : nat) :
  q ^ Z.of_nat (S n) == q ^ Z.of_nat n * q.
Proof.
  rewrite Nat2Z.inj_succ, <- Z.add_1_r.
  rewrite Qpower_plus' by lia. rewrite Qpower_1_r. reflexivity.
Qed.

Lemma rollback_loop_wd D bar Sb Ab done decay ks st st' :
  rollback_loop D bar Sb Ab done decay ks st = Ok st' ->
  sel_wd st' == sel_wd st * decay ^ Z.of_nat (length ks).
Proof.
  revert st. induction ks as [|k ks IH]; intros st H; simpl in H.
  - injection H as <-. simpl. rewrite Qmult_1_r. reflexivity.
  - destruct (rollback_iter D bar Sb Ab done decay k st) as [st1|] eqn:E; [|discriminate].
    simpl in H. rewrite (IH st1 H), (rollback_iter_wd _ _ _ _ _ _ _ _ _ E).
    simpl length. rewrite Qpower_succ_nat. ring.
Qed.

Lemma Qlt_bool_true (x y : Q) : Qlt_bool x y = true -> x < y.
Proof.
  unfold Qlt_bool. intros H. apply negb_true_iff in H.
  apply Qnot_le_lt. intros Hle. apply Qle_bool_iff in Hle. congruence.
Qed.

Lemma assign_weights_nth (mask : list bool) (w w' : list Q) (wd : Q) (i : nat) :
  assign_weights mask w wd = Ok w' ->
  nth i w' 0 = nth i w 0 \/ (nth i w 0 < wd /\ nth i w' 0 = wd).
Proof.
  unfold assign_weights. destruct (length mask =? length w)%nat eqn:E; [|discriminate].
  apply Nat.eqb_eq in E. intros H. injection H as <-. unfold map2.
  revert w i E. induction mask as [|m mask IH]; intros [|x w] i E; simpl in *;
    try (left; destruct i; reflexivity); try discriminate.
  destruct i as [|i].
  - destruct (m && Qlt_bool x wd) eqn:B; [|left; reflexivity].
    right. apply andb_true_iff in B as [_ B]. split; [apply Qlt_bool_true; exact B|reflexivity].
  - apply IH. lia.
Qed.

Lemma rollback_iter_weights D bar Sb Ab done decay k st st' i :
  rollback_iter D bar Sb Ab done decay k st = Ok st' ->
  nth i (sel_weight st') 0 = nth i (sel_weight st) 0 \/
  (nth i (sel_weight st) 0 < sel_wd st /\ nth i (sel_weight st') 0 = sel_wd st).
Proof.
  unfold rollback_iter.
  destruct (disc_call D [Sb; Ab]); simpl; [|discriminate].
  destruct (length (A:=Q) _ =? 1)%nat; [discriminate|].
  destruct (or_shift _ _ k); simpl; [|discriminate].
  destruct (assign_weights _ _ _) as [w'|] eqn:E; simpl; [|discriminate].
  intros H. injection H as <-. simpl. eapply assign_weights_nth. exact E.
Qed.

(** C5: across iteration [k] of the rollback loop, whatever the
    discriminator, no weight decreases; a weight changes only when it was
    strictly below [weight_init * decay ^ k], and then becomes that value. *)
Theorem rollback_weights_monotone (D : score) (bar : Q) (Sb Ab : list (list Q))
    (done : list nat) (decay weight_init : Q) (mask0 : list bool) (w0 : list Q)
    (k : nat) (st_k st_k1 : sel_state) :
  rollback_loop D bar Sb Ab done decay (seq 0 k)
    {| sel_mask := mask0; sel_weight := w0; sel_wd := weight_init |} = Ok st_k ->
  rollback_loop D bar Sb Ab done decay (seq 0 (S k))
    {| sel_mask := mask0; sel_weight := w0; sel_wd := weight_init |} = Ok st_k1 ->
  forall i,
    nth i (sel_weight st_k) 0 <= nth i (sel_weight st_k1) 0 /\
    (nth i (sel_weight st_k1) 0 = nth i (sel_weight st_k) 0 \/
     (nth i (sel_weight st_k) 0 < weight_init * decay ^ Z.of_nat k /\
      nth i (sel_weight st_k1) 0 == weight_init * decay ^ Z.of_nat k)).
Proof.
  intros Hk Hk1 i.
  rewrite seq_S, rollback_loop_app, Hk in Hk1. simpl in Hk1.
  destruct (rollback_iter D bar Sb Ab done decay k st_k) as [st|] eqn:E; [|discriminate].
  injection Hk1 as ->.
  pose proof (rollback_loop_wd _ _ _ _ _ _ _ _ _ Hk) as Hwd.
  rewrite length_seq in Hwd. simpl sel_wd in Hwd.
  destruct (rollback_iter_weights _ _ _ _ _ _ _ _ _ i E) as [H|[Hlt Heq]].
  - rewrite H. split; [apply Qle_refl|left; reflexivity].
  - rewrite Heq. split; [apply Qlt_le_weak; exact Hlt|].
    right. rewrite <- Hwd. split; [exact Hlt|reflexivity].
Qed.

Lemma rollback_weights_monotone_witness :
  rollback_loop D3 (1#2) (state rb3) (action rb3) [3%nat] (1#2) (seq 0 1)
    {| sel_mask := [false; false; true]; sel_weight := [0; 0; 0]; sel_wd := 1 |}
  = Ok {| sel_mask := [false; true; true]; sel_weight := [0; 1; 1]; sel_wd := 1 * (1#2) |} /\
  rollback_loop D3 (1#2) (state rb3) (action rb3) [3%nat] (1#2) (seq 0 2)
    {| sel_mask := [false; false; true]; sel_weight := [0; 0; 0]; sel_wd := 1 |}
  = Ok {| sel_mask := [true; true; true]; sel_weight := [1 * (1#2); 1; 1];
          sel_wd := 1 * (1#2) * (1#2) |} /\
  nth 0 [0; 1; 1] 0 <= nth 0 [1 * (1#2); 1; 1] 0 /\
  (nth 0 [1 * (1#2); 1; 1] 0 = nth 0 [0; 1; 1] 0 \/
   (nth 0 [0; 1; 1] 0 < 1 * (1#2) ^ Z.of_nat 1 /\
    nth 0 [1 * (1#2); 1; 1] 0 == 1 * (1#2) ^ Z.of_nat 1)).
Proof.
  assert (H1 : rollback_loop D3 (1#2) (state rb3) (action rb3) [3%nat] (1#2) (seq 0 1)
    {| sel_mask := [false; false; true]; sel_weight := [0; 0; 0]; sel_wd := 1 |}
    = Ok {| sel_mask := [false; true; true]; sel_weight := [0; 1; 1]; sel_wd := 1 * (1#2) |})
    by (vm_compute; reflexivity).
  assert (H2 : rollback_loop D3 (1#2) (state rb3) (action rb3) [3%nat] (1#2) (seq 0 2)
    {| sel_mask := [false; false; true]; sel_weight := [0; 0; 0]; sel_wd := 1 |}
    = Ok {| sel_mask := [true; true; true]; sel_weight := [1 * (1#2); 1; 1];
            sel_wd := 1 * (1#2) * (1#2) |})
    by (vm_compute; reflexivity).
  split; [exact H1|]. split; [exact H2|].
  exact (rollback_weights_monotone D3 (1#2) (state rb3) (action rb3) [3%nat] (1#2) 1
           [false; false; true] [0; 0; 0] 1 _ _ H1 H2 0).
Defined.


Lemma nth_map2_seq {A B : Type} (f : nat -> A -> B) (l : list A) (a j : nat) (d : A) (d' : B) :
  nth j (map2 f (seq a (length l)) l) d'
  = if (j <? length l)%nat then f (a + j)%nat (nth j l d) else d'.
Proof.
  unfold map2. revert a j. induction l as [|x l IH]; intros a j; simpl.
  - destruct j; reflexivity.
  - destruct j as [|j]; simpl.
    + rewrite Nat.add_0_r. reflexivity.
    + rewrite IH. replace (a + S j)%nat with (S a + j)%nat by lia. reflexivity.
Qed.

Lemma zero_range_nth (lo hi j : nat) (l : list bool) :
  nth j (zero_range lo hi l) false
  = if (lo <=? j)%nat && (j <? hi)%nat then false else nth j l false.
Proof.
  unfold zero_range. rewrite (nth_map2_seq _ _ _ _ false). simpl.
  destruct (j <? length l)%nat eqn:E.
  - reflexivity.
  - apply Nat.ltb_ge in E. rewrite nth_overflow by exact E.
    destruct (_ && _); reflexivity.
Qed.

Lemma zero_heads_false (k start j : nat) (done : list nat) (l : list bool) :
  nth j l false = false -> nth j (zero_heads k start done l) false = false.
Proof.
  revert start l. induction done as [|e done IH]; intros start l H; simpl; [exact H|].
  apply IH. rewrite zero_range_nth, H. destruct (_ && _); reflexivity.
Qed.

(** The inner loop clears every position lying less than [k + 1] steps after
    the start of its trajectory. *)
Lemma zero_heads_clears (k : nat) (done : list nat) (start j : nat) (index : list bool) :
  StronglySorted lt (start :: done) ->
  (exists e, In e done /\ (j < e)%nat) ->
  (exists d, In d (start :: done) /\ (d <= j < d + k + 1)%nat) ->
  nth j (zero_heads k start done index) false = false.
Proof.
  revert start index. induction done as [|e done IH]; intros start index Hs He Hd.
  - destruct He as [e [[] _]].
  - simpl. apply StronglySorted_inv in Hs as [Hs Hst].
    pose proof (Forall_inv Hst) as Hse. simpl in Hse.
    pose proof (StronglySorted_inv Hs) as [_ Hed].
    destruct (Nat.lt_ge_cases j e) as [Hje|Hje].
    + apply zero_heads_false. rewrite zero_range_nth.
      destruct Hd as [d [[<-|[<-|Hd]] Hdj]]; [| lia |].
      * replace ((start <=? j) && (j <? Nat.min e (start + k + 1)))%nat with true; [reflexivity|].
        symmetry. apply andb_true_iff. rewrite Nat.leb_le, Nat.ltb_lt. lia.
      * rewrite Forall_forall in Hed. specialize (Hed d Hd). lia.
    + apply IH.
      * exact Hs.
      * destruct He as [e0 [[<-|He0] Hj]]; [lia|]. exists e0. auto.
      * destruct Hd as [d [[<-|Hd] Hdj]].
        -- exists e. split; [left; reflexivity|]. lia.
        -- exists d. auto.
Qed.

Lemma StronglySorted_seq (a n : nat) : StronglySorted lt (seq a n).
Proof.
  revert a. induction n as [|n IH]; intros a; simpl; constructor; [apply IH|].
  apply Forall_forall. intros x Hx. apply in_seq in Hx. lia.
Qed.

Lemma StronglySorted_filter_lt (f : nat -> bool) (l : list nat) :
  StronglySorted lt l -> StronglySorted lt (filter f l).
Proof.
  induction 1 as [|x l _ IH Hx]; simpl; [constructor|].
  destruct (f x); [|exact IH]. constructor; [exact IH|].
  rewrite Forall_forall in *. intros y Hy. apply filter_In in Hy as [Hy _]. auto.
Qed.

Lemma StronglySorted_map_S (l : list nat) :
  StronglySorted lt l -> StronglySorted lt (map S l).
Proof.
  induction 1 as [|x l _ IH Hx]; simpl; constructor; [exact IH|].
  apply Forall_map. eapply Forall_impl; [|exact Hx]. simpl. intros. lia.
Qed.

(** The boundaries computed by [select_data] are increasing and end at the
    buffer length. *)
Lemma done_of_boundaries (nd0 nd to : list Q) (done : list nat) :
  set_last_zero nd0 = Ok nd -> done_of nd to = Ok done ->
  StronglySorted lt (0%nat :: done) /\ In (length nd) done.
Proof.
  unfold set_last_zero, done_of. intros Hnd Hd.
  destruct (length nd =? length to)%nat; [|discriminate]. injection Hd as <-.
  split.
  - constructor.
    + apply StronglySorted_map_S, StronglySorted_filter_lt, StronglySorted_seq.
    + apply Forall_map, Forall_forall. intros; simpl; lia.
  - destruct nd0 as [|x nd0]; [discriminate|].
    assert (Hnd' : nd = removelast (x :: nd0) ++ [0])
      by (injection Hnd as H; symmetry; exact H).
    subst nd. generalize (removelast (x :: nd0)) as r. intros r.
    rewrite length_app. simpl. replace (length r + 1)%nat with (S (length r)) by lia.
    apply in_map, filter_In. split.
    + apply in_seq. lia.
    + rewrite app_nth2 by lia. rewrite Nat.sub_diag. reflexivity.
Qed.

Lemma or_shift_nth (mask index mask' : list bool) (k i : nat) :
  or_shift mask index k = Ok mask' ->
  nth i mask' false
  = if (i + k + 1 <? length mask)%nat then nth i mask false || nth (i + k + 1) index false
    else nth i mask false.
Proof.
  unfold or_shift. destruct (length mask =? length index)%nat; [|discriminate].
  intros H. injection H as <-. rewrite (nth_map2_seq _ _ _ _ false). simpl.
  destruct (i <? length mask)%nat eqn:E.
  - reflexivity.
  - apply Nat.ltb_ge in E. rewrite nth_overflow by exact E.
    replace (i + k + 1 <? length mask)%nat with false by (symmetry; apply Nat.ltb_ge; lia).
    reflexivity.
Qed.

(** C6: in iteration [k] of the rollback loop, a transition [i] lying within
    [k + 1] steps of the end of its trajectory (a boundary [d], the first
    index of the next trajectory, with [i < d <= i + k + 1]) gains nothing
    from the shifted mask: it is never retained on account of a transition of
    a following trajectory. *)
Theorem rollback_no_cross_boundary (D : score) (bar : Q) (Sb Ab : list (list Q))
    (decay : Q) (k : nat) (nd0 nd to : list Q) (done : list nat) (st st' : sel_state)
    (i : nat) :
  set_last_zero nd0 = Ok nd ->
  done_of nd to = Ok done ->
  length (sel_mask st) = length nd ->
  rollback_iter D bar Sb Ab done decay k st = Ok st' ->
  (exists d, In d done /\ (i < d <= i + k + 1)%nat) ->
  nth i (sel_mask st') false = nth i (sel_mask st) false.
Proof.
  intros Hnd Hdone Hlen Hit [d [Hd Hid]].
  destruct (done_of_boundaries _ _ _ _ Hnd Hdone) as [Hsorted Hlast].
  unfold rollback_iter in Hit.
  destruct (disc_call D [Sb; Ab]) as [sc|]; simpl in Hit; [|discriminate].
  destruct (length sc =? 1)%nat; [discriminate|].
  destruct (or_shift (sel_mask st) _ k) as [mask'|] eqn:Hor; simpl in Hit; [|discriminate].
  destruct (assign_weights _ _ _); simpl in Hit; [|discriminate].
  injection Hit as <-. simpl.
  rewrite (or_shift_nth _ _ _ _ _ Hor).
  destruct (i + k + 1 <? length (sel_mask st))%nat eqn:E; [|reflexivity].
  apply Nat.ltb_lt in E.
  rewrite (zero_heads_clears k done 0 (i + k + 1)).
  - apply orb_false_r.
  - exact Hsorted.
  - exists (length nd). split; [exact Hlast|lia].
  - exists d. split; [right; exact Hd|lia].
Qed.

(** Two trajectories of two steps each: rows 0-1 and rows 2-3. *)
Definition ds5 : d4rl := {|
  observations := [[0]; [1]; [2]; [3]]; actions := [[0]; [0]; [0]; [0]];
  next_observations := [[1]; [2]; [3]; [4]]; rewards := [0; 0; 0; 0];
  terminals := [0; 1; 0; 1]; flags := [0; 0; 0; 0]; timeouts := [0; 0; 0; 0] |}.

Definition rb5 : buffer := convert_d4rl (init 1 1 4) ds5.

Definition st5 : sel_state :=
  {| sel_mask := [false; false; false; false]; sel_weight := [0; 0; 0; 0]; sel_wd := 1 |}.

Lemma rollback_no_cross_boundary_witness :
  exists st',
    not_done rb5 = [1; 0; 1; 0] /\ timeout rb5 = [0; 0; 0; 0] /\
    set_last_zero (not_done rb5) = Ok [1; 0; 1; 0] /\
    done_of [1; 0; 1; 0] (timeout rb5) = Ok [2%nat; 4%nat] /\
    (1 + 0 + 1 < length (sel_mask st5))%nat /\
    nth 2 (ge_bar (1#2) (map2 D3 (state rb5) (action rb5))) false = true /\
    rollback_iter D3 (1#2) (state rb5) (action rb5) [2%nat; 4%nat] (1#2) 0 st5 = Ok st' /\
    nth 1 (sel_mask st') false = nth 1 (sel_mask st5) false.
Proof.
  eexists.
  assert (H1 : set_last_zero (not_done rb5) = Ok [1; 0; 1; 0]) by (vm_compute; reflexivity).
  assert (H2 : done_of [1; 0; 1; 0] (timeout rb5) = Ok [2%nat; 4%nat])
    by (vm_compute; reflexivity).
  split; [vm_compute; reflexivity|]. split; [vm_compute; reflexivity|].
  split; [exact H1|]. split; [exact H2|]. split; [simpl; lia|].
  split; [vm_compute; reflexivity|]. split; [vm_compute; reflexivity|].
  apply (rollback_no_cross_boundary D3 (1#2) (state rb5) (action rb5) (1#2) 0
           (not_done rb5) [1; 0; 1; 0] (timeout rb5) [2%nat; 4%nat] st5 _ 1 H1 H2).
  - reflexivity.
  - vm_compute. reflexivity.
  - exists 2%nat. split; [left; reflexivity|lia].
Defined.

End SelectorTheorems.

(** ** Trajectory splitting: segmentation and selection *)
Section SplitterFacts.
Import Splitter Datasets.
Local Open Scope nat_scope.

Definition ends_step (b : bool) (trajs : list (list step)) (rr : raw * raw) : list (list step) :=
  let trajs := append_last trajs (mk_step (fst rr) (snd rr)) in
  if negb b && (r_tout (fst rr) || r_term (fst rr)) then trajs ++ [[]] else trajs.

Lemma collect_fold (b : bool) (ds : list raw) :
  collect b ds = fold_left (ends_step b) (combine ds (tl ds)) [[]].
Proof. reflexivity. Qed.

Lemma append_last_snoc {A : Type} (l : list (list A)) (t : list A) (x : A) :
  append_last (l ++ [t]) x = l ++ [t ++ [x]].
Proof. unfold append_last. rewrite removelast_last, last_last. reflexivity. Qed.

Lemma append_last_concat {A : Type} (acc : list (list A)) (x : A) :
  concat (append_last acc x) = concat acc ++ [x].
Proof.
  destruct acc as [|t l] using rev_ind; [reflexivity|].
  rewrite append_last_snoc, !concat_app. simpl. rewrite !app_nil_r, app_assoc. reflexivity.
Qed.

Lemma collect_fold_concat (b : bool) (l : list (raw * raw)) (acc : list (list step)) :
  concat (fold_left (ends_step b) l acc)
  = concat acc ++ map (fun rr => mk_step (fst rr) (snd rr)) l.
Proof.
  revert acc. induction l as [|rr l IH]; intros acc; simpl; [rewrite app_nil_r; reflexivity|].
  rewrite IH. unfold ends_step.
  destruct (negb b && _); [rewrite concat_app; simpl; rewrite app_nil_r|];
    rewrite append_last_concat, <- app_assoc; reflexivity.
Qed.

Lemma pairs_cons {A : Type} (x : A) (z : list A) :
  combine (x :: z) (tl (x :: z)) = match z with [] => [] | y :: _ => (x, y) :: combine z (tl z) end.
Proof. destruct z; reflexivity. Qed.

Lemma pairs_fst {A : Type} (l : list A) : map fst (combine l (tl l)) = removelast l.
Proof.
  induction l as [|x z IH]; [reflexivity|].
  rewrite pairs_cons. destruct z as [|y z]; [reflexivity|].
  rewrite map_cons, IH. reflexivity.
Qed.

Lemma pairs_snd {A : Type} (l : list A) : map snd (combine l (tl l)) = tl l.
Proof.
  induction l as [|x z IH]; [reflexivity|].
  rewrite pairs_cons. destruct z as [|y z]; [reflexivity|].
  rewrite map_cons, IH. reflexivity.
Qed.

Lemma pairs_snoc2 {A : Type} (l : list A) (a b : A) :
  combine (l ++ [a; b]) (tl (l ++ [a; b])) = combine (l ++ [a]) (tl (l ++ [a])) ++ [(a, b)].
Proof.
  induction l as [|x z IH]; [reflexivity|].
  simpl app. rewrite !pairs_cons.
  destruct z as [|y z]; [reflexivity|].
  simpl app in IH |- *. rewrite IH. reflexivity.
Qed.

(** A finished trajectory: steps inside the episode, then the step that ends
    it. *)
Definition finished (t : list step) : Prop :=
  exists u s, t = u ++ [s] /\ Forall (fun s => step_ends s = false) u /\ step_ends s = true.

Definition seg_inv (acc : list (list step)) : Prop :=
  exists done cur, acc = done ++ [cur] /\ Forall finished done /\
    Forall (fun s => step_ends s = false) cur.

Lemma ends_step_inv (acc : list (list step)) (rr : raw * raw) :
  seg_inv acc -> seg_inv (ends_step false acc rr).
Proof.
  intros (done & cur & -> & Hd & Hc). unfold ends_step. rewrite append_last_snoc. simpl.
  destruct (r_tout (fst rr) || r_term (fst rr)) eqn:E.
  - exists (done ++ [cur ++ [mk_step (fst rr) (snd rr)]]), []. split; [reflexivity|].
    split; [|constructor]. apply Forall_app. split; [exact Hd|]. constructor; [|constructor].
    exists cur, (mk_step (fst rr) (snd rr)). split; [reflexivity|]. split; [exact Hc|exact E].
  - exists done, (cur ++ [mk_step (fst rr) (snd rr)]). split; [reflexivity|].
    split; [exact Hd|]. apply Forall_app. split; [exact Hc|]. constructor; [exact E|constructor].
Qed.

Lemma fold_seg_inv (l : list (raw * raw)) (acc : list (list step)) :
  seg_inv acc -> seg_inv (fold_left (ends_step false) l acc).
Proof.
  revert acc. induction l as [|rr l IH]; intros acc H; simpl; [exact H|].
  apply IH, ends_step_inv, H.
Qed.

Lemma seg_inv_init : seg_inv [[]].
Proof. exists [], []. repeat constructor. Qed.

Lemma collect_snoc (ds : list raw) (r r' : raw) :
  collect false (ds ++ [r; r'])
  = ends_step false (collect false (ds ++ [r])) (r, r').
Proof.
  rewrite !collect_fold, pairs_snoc2, fold_left_app. reflexivity.
Qed.

Lemma length_append_last {A : Type} (acc : list (list A)) (x : A) :
  acc <> [] -> length (append_last acc x) = length acc.
Proof.
  intros H. destruct acc as [|t l] using rev_ind; [congruence|].
  rewrite append_last_snoc, !length_app. reflexivity.
Qed.

Lemma fold_count (l : list (raw * raw)) (acc : list (list step)) :
  acc <> [] ->
  length (fold_left (ends_step false) l acc)
  = length acc + length (filter (fun rr => row_ends (fst rr)) l).
Proof.
  revert acc. induction l as [|rr l IH]; intros acc H; simpl; [lia|].
  unfold ends_step at 2. unfold row_ends at 1. simpl negb. simpl andb.
  destruct (r_tout (fst rr) || r_term (fst rr)) eqn:E.
  - rewrite IH by (destruct (append_last acc _); discriminate).
    rewrite length_app, length_append_last by exact H. simpl. lia.
  - rewrite IH.
    + rewrite length_append_last by exact H. reflexivity.
    + unfold append_last. destruct (removelast acc); discriminate.
Qed.

Lemma filter_map_fst {A B : Type} (f : A -> bool) (l : list (A * B)) :
  length (filter (fun p => f (fst p)) l) = length (filter f (map fst l)).
Proof. induction l as [|[a b] l IH]; simpl; [reflexivity|]. destruct (f a); simpl; lia. Qed.

Lemma map_nth_seq_all {A : Type} (l : list A) (d : A) :
  map (fun i => nth i l d) (seq 0 (length l)) = l.
Proof.
  induction l as [|x l IH]; simpl; [reflexivity|]. f_equal.
  rewrite <- seq_shift, map_map. exact IH.
Qed.

Lemma firstn_seq_le (e c : nat) : e <= c -> firstn e (seq 0 c) = seq 0 e.
Proof.
  intros H. replace c with (e + (c - e)) by lia.
  rewrite seq_app, firstn_app, length_seq, Nat.sub_diag, firstn_0, app_nil_r.
  apply firstn_all2. rewrite length_seq. lia.
Qed.

Lemma concat_rows_all_nonempty (ts : list (list (list Q))) :
  ts <> [] -> Forall (fun t => t <> []) ts -> concat_rows ts = Ok (concat ts).
Proof.
  intros Hne Hall. unfold concat_rows. destruct ts as [|t ts']; [congruence|].
  replace (existsb (fun t => match t with [] => true | _ => false end) (t :: ts')) with false.
  - reflexivity.
  - symmetry. apply not_true_iff_false. intros Hx. apply existsb_exists in Hx as [u [Hu Hx]].
    rewrite Forall_forall in Hall. specialize (Hall u Hu). destruct u; congruence.
Qed.

Lemma concat_scalars_nonempty {A : Type} (ts : list (list A)) :
  ts <> [] -> concat_scalars ts = Ok (concat ts).
Proof. destruct ts; [congruence|reflexivity]. Qed.

Lemma concat_rows_ok (ts : list (list (list Q))) (o : list (list Q)) :
  concat_rows ts = Ok o -> o = concat ts.
Proof.
  unfold concat_rows. destruct ts; [discriminate|].
  destruct (_ && _); [discriminate|]. intros H. injection H as <-. reflexivity.
Qed.

Lemma concat_scalars_ok {A : Type} (ts : list (list A)) (o : list A) :
  concat_scalars ts = Ok o -> o = concat ts.
Proof. destruct ts; [discriminate|]. intros H. injection H as <-. reflexivity. Qed.

Lemma concat_rows_mixed (ts : list (list (list Q))) :
  In [] ts -> (exists t, In t ts /\ t <> []) -> concat_rows ts = Raise ValueError.
Proof.
  intros H0 [t [Ht Hne]]. unfold concat_rows. destruct ts as [|u ts]; [destruct H0|].
  replace (existsb (fun t => match t with [] => true | _ => false end) (u :: ts)) with true.
  - replace (existsb (fun t => match t with [] => false | _ => true end) (u :: ts)) with true;
      [reflexivity|].
    symmetry. apply existsb_exists. exists t. split; [exact Ht|]. destruct t; congruence.
  - symmetry. apply existsb_exists. exists []. split; [exact H0|reflexivity].
Qed.

(** The error of [build] is [np.concatenate]'s. *)
Lemma build_error (sel : list (list step)) (e : py_exc) :
  build sel = Raise e -> e = ValueError.
Proof.
  unfold build, concat_rows, concat_scalars.
  destruct sel as [|t sel]; simpl; [congruence|].
  repeat match goal with
         | |- context [if ?c then _ else _] => destruct c
         end; simpl; congruence.
Qed.

Lemma dataset_m_trajs_error (ds : list raw) (m : nat) (e : py_exc) :
  dataset_m_trajs ds m = Raise e -> e = ValueError.
Proof. apply build_error. Qed.

(** Every column of a built dataset has one row per selected step. *)
Lemma build_lengths (sel : list (list step)) (d : dataset) :
  build sel = Ok d ->
  let n := length (concat sel) in
  length (observations d) = n /\ length (actions d) = n /\
  length (next_observations d) = n /\ length (rewards d) = n /\
  length (terminals d) = n /\ length (timeouts d) = n.
Proof.
  unfold build. intros H. cbv zeta.
  assert (Hr : forall (f : step -> list Q) o, concat_rows (map (map f) sel) = Ok o ->
                 length o = length (concat sel)).
  { intros f o Ho. rewrite (concat_rows_ok _ _ Ho), <- concat_map, length_map. reflexivity. }
  assert (Hs : forall (B : Type) (f : step -> B) o, concat_scalars (map (map f) sel) = Ok o ->
                 length o = length (concat sel)).
  { intros B f o Ho. rewrite (concat_scalars_ok _ _ Ho), <- concat_map, length_map. reflexivity. }
  destruct (concat_rows (map (map s_obs) sel)) as [o|] eqn:E1; [|discriminate]. simpl in H.
  destruct (concat_rows (map (map s_act) sel)) as [a|] eqn:E2; [|discriminate]. simpl in H.
  destruct (concat_rows (map (map s_next_obs) sel)) as [no|] eqn:E3; [|discriminate]. simpl in H.
  destruct (concat_scalars (map (map s_rew) sel)) as [r|] eqn:E4; [|discriminate]. simpl in H.
  destruct (concat_scalars (map (map s_done) sel)) as [dn|] eqn:E5; [|discriminate]. simpl in H.
  destruct (concat_scalars (map (map s_tout) sel)) as [t|] eqn:E6; [|discriminate]. simpl in H.
  injection H as <-. simpl.
  rewrite (Hr _ _ E1), (Hr _ _ E2), (Hr _ _ E3), (Hs _ _ _ E4), (Hs _ _ _ E5), (Hs _ _ _ E6).
  repeat split.
Qed.

(** The steps of [collect false (pre ++ [r; r'])] when row [r] does not end its
    episode: all trajectories are non-empty. *)
Lemma collect_last_open (pre : list raw) (r r' : raw) :
  row_ends r = false ->
  Forall (fun t => t <> []) (collect false (pre ++ [r; r'])).
Proof.
  intros Hr. rewrite collect_snoc.
  destruct (fold_seg_inv (combine (pre ++ [r]) (tl (pre ++ [r]))) [[]] seg_inv_init)
    as (done & cur & Heq & Hd & _).
  rewrite <- collect_fold in Heq. rewrite Heq.
  unfold ends_step. rewrite append_last_snoc. simpl. unfold row_ends in Hr. rewrite Hr.
  apply Forall_app. split.
  - eapply Forall_impl; [|exact Hd]. intros t (u & s & -> & _ & _). destruct u; discriminate.
  - constructor; [destruct cur; discriminate|constructor].
Qed.

Lemma build_all (sel : list (list step)) :
  sel <> [] -> Forall (fun t => t <> []) sel ->
  build sel = Ok {| observations := map s_obs (concat sel); actions := map s_act (concat sel);
                    next_observations := map s_next_obs (concat sel);
                    rewards := map s_rew (concat sel); terminals := map s_done (concat sel);
                    timeouts := map s_tout (concat sel) |}.
Proof.
  intros Hne Hall.
  assert (Hm : forall (B : Type) (f : step -> B), map (map f) sel <> []).
  { intros B f. destruct sel; [congruence|discriminate]. }
  assert (Hma : forall (f : step -> list Q), Forall (fun t => t <> []) (map (map f) sel)).
  { intros f. apply Forall_map. eapply Forall_impl; [|exact Hall].
    intros t Ht. destruct t; [congruence|discriminate]. }
  unfold build.
  rewrite !concat_rows_all_nonempty by auto. simpl.
  rewrite !concat_scalars_nonempty by auto. simpl.
  rewrite !concat_map. reflexivity.
Qed.

Lemma collect_nonempty (b : bool) (ds : list raw) : collect b ds <> [].
Proof.
  rewrite collect_fold. generalize (combine ds (tl ds)).
  assert (H : forall l (acc : list (list step)), acc <> [] -> fold_left (ends_step b) l acc <> []).
  { induction l as [|rr l IH]; intros acc Hacc; simpl; [exact Hacc|].
    apply IH. unfold ends_step, append_last.
    destruct (negb b && _); destruct (removelast acc); discriminate. }
  intros l. apply H. discriminate.
Qed.

Lemma pick_all (T : list (list step)) (m : nat) :
  length T <= m -> pick T (firstn m (seq 0 (length T))) = T.
Proof.
  intros H. rewrite firstn_all2 by (rewrite length_seq; exact H).
  unfold pick. apply map_nth_seq_all.
Qed.

Lemma existsb_seq (i a n : nat) :
  existsb (Nat.eqb i) (seq a n) = ((a <=? i) && (i <? a + n)).
Proof.
  destruct (existsb (Nat.eqb i) (seq a n)) eqn:E; symmetry.
  - apply existsb_exists in E as [x [Hx Hix]]. apply in_seq in Hx. apply Nat.eqb_eq in Hix.
    apply andb_true_iff. rewrite Nat.leb_le, Nat.ltb_lt. lia.
  - apply not_true_iff_false. intros Hc. apply andb_true_iff in Hc as [H1 H2].
    apply Nat.leb_le in H1. apply Nat.ltb_lt in H2.
    assert (Hin : existsb (Nat.eqb i) (seq a n) = true).
    { apply existsb_exists. exists i. split; [apply in_seq; lia|apply Nat.eqb_refl]. }
    congruence.
Qed.

Lemma filter_all_false {A : Type} (f : A -> bool) (l : list A) :
  (forall x, In x l -> f x = false) -> filter f l = [].
Proof.
  induction l as [|x l IH]; intros H; simpl; [reflexivity|].
  rewrite H by (left; reflexivity). apply IH. intros y Hy. apply H. right. exact Hy.
Qed.

Lemma filter_notin_seq (k s : nat) :
  filter (fun i => negb (existsb (Nat.eqb i) (seq k s))) (seq 0 (k + s)) = seq 0 k.
Proof.
  rewrite seq_app, filter_app. simpl.
  rewrite (filter_ext_in _ (fun _ => true) (seq 0 k)).
  2:{ intros i Hi. apply in_seq in Hi. rewrite existsb_seq.
      replace (k <=? i) with false by (symmetry; apply Nat.leb_gt; lia). reflexivity. }
  rewrite (filter_ext_in _ (fun _ => false) (seq k s)).
  2:{ intros i Hi. apply in_seq in Hi. rewrite existsb_seq.
      replace (k <=? i) with true by (symmetry; apply Nat.leb_le; lia).
      replace (i <? k + s) with true by (symmetry; apply Nat.ltb_lt; lia). reflexivity. }
  rewrite filter_true, filter_all_false; [apply app_nil_r|].
  intros; reflexivity.
Qed.

Lemma filter_notin_self (l : list nat) :
  filter (fun i => negb (existsb (Nat.eqb i) l)) l = [].
Proof.
  apply filter_all_false. intros x Hx. apply negb_false_iff, existsb_exists.
  exists x. split; [exact Hx|apply Nat.eqb_refl].
Qed.

(** X1: Splitting never loses or reorders a transition: the trajectories of
    [collect], put end to end, are the steps of the pairs (row i, row i+1) for
    every i < n - 1, in order, whatever [terminate_on_end]. *)
Theorem collect_partitions_steps (terminate_on_end : bool) (ds : list raw) :
  concat (collect terminate_on_end ds)
  = map (fun rr => mk_step (fst rr) (snd rr)) (combine ds (tl ds)).
Proof.
  rewrite collect_fold, collect_fold_concat. reflexivity.
Qed.

(** X2: With [terminate_on_end = False] (as every caller has it), [collect] cuts
    exactly at episode ends: every trajectory but the last ends with a step
    that ends its episode and contains no other such step, and the last one
    contains none. *)
Theorem collect_cuts_at_episode_ends (ds : list raw) :
  exists done cur, collect false ds = done ++ [cur] /\
    Forall (fun t => exists u s, t = u ++ [s] /\
                      Forall (fun s => step_ends s = false) u /\ step_ends s = true) done /\
    Forall (fun s => step_ends s = false) cur.
Proof.
  rewrite collect_fold. apply fold_seg_inv, seg_inv_init.
Qed.

(** X3: The number of trajectories is one more than the number of rows, among
    the first n - 1, that end their episode (the last row never counts). *)
Theorem trajectory_count_episode_ends (ds : list raw) :
  trajectory_count ds = S (length (filter row_ends (removelast ds))).
Proof.
  unfold trajectory_count. rewrite collect_fold, fold_count by discriminate.
  rewrite filter_map_fst, pairs_fst. reflexivity.
Qed.

(** X4: When the second-to-last row does not end its episode, asking
    [dataset_m_trajs] for at least all trajectories returns every transition:
    the first n - 1 rows as states, actions, rewards, terminals and timeouts,
    and rows 1..n-1 as next states. *)
Theorem dataset_m_trajs_all_rows (pre : list raw) (r r' : raw) (m : nat) :
  row_ends r = false ->
  trajectory_count (pre ++ [r; r']) <= m ->
  let ds := pre ++ [r; r'] in
  dataset_m_trajs ds m
  = Ok {| observations := map r_obs (removelast ds); actions := map r_act (removelast ds);
          next_observations := map r_obs (tl ds); rewards := map r_rew (removelast ds);
          terminals := map r_term (removelast ds); timeouts := map r_tout (removelast ds) |}.
Proof.
  intros Hr Hm ds. unfold dataset_m_trajs. rewrite pick_all by exact Hm.
  rewrite build_all.
  - assert (Hc : concat (collect false ds)
                 = map (fun rr => mk_step (fst rr) (snd rr)) (combine ds (tl ds)))
      by (rewrite collect_fold, collect_fold_concat; reflexivity).
    rewrite Hc, !map_map. simpl.
    set (P := combine ds (tl ds)).
    rewrite <- (pairs_snd ds), <- (pairs_fst ds), !map_map. reflexivity.
  - apply collect_nonempty.
  - apply collect_last_open, Hr.
Qed.

(** X5: When the second-to-last row ends its episode, the last trajectory is
    empty; asking [dataset_m_trajs] for all trajectories then concatenates an
    empty trajectory with a non-empty one and raises [ValueError]. *)
Theorem dataset_m_trajs_trailing_empty (pre : list raw) (r r' : raw) (m : nat) :
  row_ends r = true ->
  trajectory_count (pre ++ [r; r']) <= m ->
  dataset_m_trajs (pre ++ [r; r']) m = Raise ValueError.
Proof.
  intros Hr Hm. unfold dataset_m_trajs. rewrite pick_all by exact Hm.
  rewrite collect_snoc.
  destruct (fold_seg_inv (combine (pre ++ [r]) (tl (pre ++ [r]))) [[]] seg_inv_init)
    as (done & cur & Heq & _ & _).
  rewrite <- collect_fold in Heq. rewrite Heq.
  unfold ends_step. rewrite append_last_snoc. simpl. unfold row_ends in Hr. rewrite Hr.
  unfold build. rewrite concat_rows_mixed; [reflexivity| |].
  - apply in_map_iff. exists []. split; [reflexivity|]. apply in_or_app. right. left. reflexivity.
  - exists (map s_obs (cur ++ [mk_step r r'])). split.
    + apply in_map. apply in_or_app. left. apply in_or_app. right. left. reflexivity.
    + rewrite map_app. destruct (map s_obs cur); discriminate.
Qed.

(** X6: [dataset_split_expert ds split_x exp_num] with [split_x <= exp_num] and
    at least [exp_num] trajectories: D_e is made of the first
    [exp_num - split_x] trajectories and the decoy part of the next [split_x]
    ones, which is [{}] exactly when [split_x = 0]. *)
Theorem split_expert_ranges (ds : list raw) (split_x exp_num : nat) :
  split_x <= exp_num -> exp_num <= trajectory_count ds ->
  let T := collect false ds in
  dataset_split_expert ds split_x exp_num
  = (de <- build (pick T (seq 0 (exp_num - split_x))) ;;
     if split_x =? 0 then Ok (de, None)
     else (dsx <- build (pick T (seq (exp_num - split_x) split_x)) ;; Ok (de, Some dsx))).
Proof.
  intros Hs He. unfold trajectory_count in He. cbv zeta. unfold dataset_split_expert.
  set (T := collect false ds) in *.
  rewrite (firstn_seq_le exp_num (length T)) by exact He. rewrite length_seq.
  destruct split_x as [|s].
  - simpl. rewrite Nat.sub_0_r.
    replace (filter _ (seq 0 exp_num)) with (seq 0 exp_num)
      by (symmetry; apply filter_true; reflexivity).
    destruct (build (pick T (seq 0 exp_num))); reflexivity.
  - change (0 <? S s) with true. cbv iota.
    rewrite skipn_seq. simpl plus.
    replace (exp_num - (exp_num - S s)) with (S s) by lia.
    assert (Hf : filter (fun i => negb (existsb (Nat.eqb i) (seq (exp_num - S s) (S s))))
                   (seq 0 exp_num) = seq 0 (exp_num - S s)).
    { rewrite <- (filter_notin_seq (exp_num - S s) (S s)). do 2 f_equal. lia. }
    rewrite Hf.
    destruct (build (pick T (seq 0 (exp_num - S s)))); [|reflexivity]. simpl.
    reflexivity.
Qed.

(** X7: Asking for no trajectory raises: [get_datasets] raises [ValueError]
    when [num_s_s = 0] ([dataset_m_trajs] concatenates an empty list) or
    [num_e = 0] (every expert trajectory it takes goes to the decoy part and
    D_e is empty). *)
Theorem get_datasets_zero_counts (dataset_e_raw dataset_s_raw : list raw)
    (num_e num_s_e num_s_s : nat) :
  num_e = 0 \/ num_s_s = 0 ->
  get_datasets dataset_e_raw dataset_s_raw num_e num_s_e num_s_s = Raise ValueError.
Proof.
  intros [He|Hs].
  - subst num_e. unfold get_datasets.
    destruct (dataset_m_trajs dataset_s_raw num_s_s) as [d|e] eqn:E.
    + simpl. unfold dataset_split_expert. simpl plus.
      destruct (0 <? num_s_e) eqn:Hs.
      * rewrite length_firstn, length_seq.
        replace (Nat.min num_s_e (length (collect false dataset_e_raw)) - num_s_e) with 0 by lia.
        simpl skipn. rewrite filter_notin_self. reflexivity.
      * apply Nat.ltb_ge in Hs. replace num_s_e with 0 by lia. reflexivity.
    + simpl. rewrite (dataset_m_trajs_error _ _ _ E). reflexivity.
  - subst num_s_s. reflexivity.
Qed.

End SplitterFacts.

(** ** D_e and D_s as [get_datasets] assembles them *)
Section DatasetsFacts.
Import Splitter Datasets.
Local Open Scope nat_scope.

Lemma split_expert_built (ds : list raw) (s e : nat) (de : dataset) (ox : option dataset) :
  dataset_split_expert ds s e = Ok (de, ox) ->
  (exists sel, build sel = Ok de) /\ (forall x, ox = Some x -> exists sel, build sel = Ok x).
Proof.
  unfold dataset_split_expert. cbv zeta. intros H.
  destruct (build (pick (collect false ds) (filter _ _))) as [d|] eqn:E; simpl in H;
    [|discriminate].
  match type of H with
  | (match ?p with [] => _ | _ :: _ => _ end) = _ => destruct p as [|t ts]; simpl in H
  end.
  - injection H as <- <-. split; [eexists; exact E|discriminate].
  - destruct (build (t :: ts)) as [x|] eqn:Ex; simpl in H; [|discriminate].
    injection H as <- <-. split; [eexists; exact E|].
    intros y Hy. injection Hy as <-. eexists. exact Ex.
Qed.

Lemma wf_with_flag (sel : list (list step)) (d : dataset) (b : bool) :
  build sel = Ok d -> Buffer.wf_d4rl (to_d4rl (with_flag d b)).
Proof.
  intros H. destruct (build_lengths sel d H) as (H1 & H2 & H3 & H4 & H5 & H6).
  unfold Buffer.wf_d4rl, to_d4rl, with_flag. simpl.
  rewrite !length_map, repeat_length. lia.
Qed.

Lemma concat2_rows_length (x y z : list (list Q)) :
  concat2_rows x y = Ok z -> z = x ++ y.
Proof.
  unfold concat2_rows. destruct x as [|r x], y as [|r' y]; try discriminate.
  - intros H. injection H as <-. reflexivity.
  - destruct (length r =? length r'); [|discriminate]. intros H. injection H as <-. reflexivity.
Qed.

(** X8: D_e is the first result of [dataset_split_expert], flagged 1
    throughout; D_s is the dataset of [dataset_m_trajs] flagged 0 when
    [dataset_split_expert] gives no extra trajectories, and otherwise that
    dataset followed, column by column, by the extra expert rows, flagged 0
    then 1; both have one row count across their columns, so the replay
    buffers built from them by [convert_d4rl] (lines 819-822) are well
    formed. *)
Theorem get_datasets_flags (dataset_e_raw dataset_s_raw : list raw)
    (num_e num_s_e num_s_s : nat) (de dsf : fdataset) :
  get_datasets dataset_e_raw dataset_s_raw num_e num_s_e num_s_s = Ok (de, dsf) ->
  exists low ox,
    dataset_m_trajs dataset_s_raw num_s_s = Ok low /\
    dataset_split_expert dataset_e_raw num_s_e (num_e + num_s_e) = Ok (fbase de, ox) /\
    fflag de = repeat true (length (terminals (fbase de))) /\
    match ox with
    | None => dsf = with_flag low false
    | Some x =>
        fbase dsf = {| observations := observations low ++ observations x;
                       actions := actions low ++ actions x;
                       next_observations := next_observations low ++ next_observations x;
                       rewards := rewards low ++ rewards x;
                       terminals := terminals low ++ terminals x;
                       timeouts := timeouts low ++ timeouts x |} /\
        fflag dsf = repeat false (length (terminals low)) ++ repeat true (length (terminals x))
    end /\
    Buffer.wf_d4rl (to_d4rl de) /\ Buffer.wf_d4rl (to_d4rl dsf) /\
    (forall state_dim action_dim max_size,
       Buffer.reachable (Buffer.convert_d4rl (Buffer.init state_dim action_dim max_size) (to_d4rl de)) /\
       Buffer.reachable (Buffer.convert_d4rl (Buffer.init state_dim action_dim max_size) (to_d4rl dsf))).
Proof.
  intros H.
  assert (Hreach : Buffer.wf_d4rl (to_d4rl de) -> Buffer.wf_d4rl (to_d4rl dsf) ->
    forall sd ad mx,
     Buffer.reachable (Buffer.convert_d4rl (Buffer.init sd ad mx) (to_d4rl de)) /\
     Buffer.reachable (Buffer.convert_d4rl (Buffer.init sd ad mx) (to_d4rl dsf))).
  { intros W1 W2 sd ad mx. split; apply Buffer.reach_convert; auto; apply Buffer.reach_init. }
  unfold get_datasets in H.
  destruct (dataset_m_trajs dataset_s_raw num_s_s) as [low|] eqn:El; [|discriminate].
  simpl in H.
  destruct (dataset_split_expert dataset_e_raw num_s_e (num_e + num_s_e)) as [[d ox]|] eqn:Es;
    [|discriminate].
  simpl in H.
  destruct (split_expert_built _ _ _ _ _ Es) as [[sel_e Hbe] Hx].
  destruct (build_lengths _ _ El) as (L1 & L2 & L3 & L4 & L5 & L6).
  exists low, ox.
  destruct ox as [x|].
  - destruct (Hx x eq_refl) as [sel_x Hbx].
    destruct (build_lengths _ _ Hbx) as (X1 & X2 & X3 & X4 & X5 & X6).
    destruct (concat2_rows (observations low) (observations x)) as [o|] eqn:Eo; [|discriminate].
    simpl in H.
    destruct (concat2_rows (actions low) (actions x)) as [a|] eqn:Ea; [|discriminate].
    simpl in H.
    destruct (concat2_rows (next_observations low) (next_observations x)) as [no|] eqn:En;
      [|discriminate].
    simpl in H. injection H as <- <-.
    apply concat2_rows_length in Eo, Ea, En. subst o a no.
    assert (W1 : Buffer.wf_d4rl (to_d4rl (with_flag d true))) by (eapply wf_with_flag; exact Hbe).
    assert (W2 : Buffer.wf_d4rl (to_d4rl {| fbase := {| observations := observations low ++ observations x;
        actions := actions low ++ actions x;
        next_observations := next_observations low ++ next_observations x;
        rewards := rewards low ++ rewards x; terminals := terminals low ++ terminals x;
        timeouts := timeouts low ++ timeouts x |};
        fflag := fflag (with_flag low false) ++ fflag (with_flag x true) |})).
    { unfold Buffer.wf_d4rl, to_d4rl, with_flag. simpl.
      rewrite !length_map, !length_app, !repeat_length. lia. }
    split; [reflexivity|]. split; [reflexivity|]. split; [reflexivity|].
    split; [split; reflexivity|].
    split; [exact W1|]. split; [exact W2|]. apply Hreach; assumption.
  - injection H as <- <-.
    assert (W1 : Buffer.wf_d4rl (to_d4rl (with_flag d true))) by (eapply wf_with_flag; exact Hbe).
    assert (W2 : Buffer.wf_d4rl (to_d4rl (with_flag low false))) by (eapply wf_with_flag; exact El).
    split; [reflexivity|]. split; [reflexivity|]. split; [reflexivity|].
    split; [reflexivity|].
    split; [exact W1|]. split; [exact W2|]. apply Hreach; assumption.
Qed.

End DatasetsFacts.

(** ** Replay buffer: appending, fresh buffers, sampling *)
Section BufferFacts.
Import Buffer.
Local Open Scope nat_scope.

(** X9: [add_transitions] appends: on buffers whose columns have [n] and [m]
    rows, the result has [n + m] rows in every column and [size = n + m];
    index [i < n] reads the first buffer's row [i], index [n + i] the second's
    row [i]. *)
Theorem add_transitions_appends (rb other : buffer) (n m : nat) :
  columns_have n rb -> columns_have m other ->
  columns_have (n + m) (add_transitions rb other) /\ size (add_transitions rb other) = n + m /\
  (forall ind, Forall (fun i => i < n) ind ->
     rows_at (add_transitions rb other) ind = rows_at rb ind) /\
  (forall ind, rows_at (add_transitions rb other) (map (fun i => n + i) ind) = rows_at other ind).
Proof.
  intros (A1 & A2 & A3 & A4 & A5 & A6 & A7 & A8) (B1 & B2 & B3 & B4 & B5 & B6 & B7 & B8).
  split; [unfold columns_have; simpl; rewrite !length_app; lia|].
  split; [simpl; rewrite length_app; lia|].
  split.
  - intros ind Hind. rewrite Forall_forall in Hind.
    unfold rows_at. simpl. f_equal; apply map_ext_in; intros i Hi; specialize (Hind i Hi);
      apply app_nth1; lia.
  - intros ind. unfold rows_at. simpl. rewrite !map_map.
    f_equal; apply map_ext; intros i; rewrite app_nth2 by lia; f_equal; lia.
Qed.

(** X10: Adding transitions to a buffer that was only constructed keeps its
    [max_size] pre-allocated rows as data: [size] counts them, and each reads
    as a zero state and action with reward 0, [not_done] 0, weight 1 and
    timeout 1. *)
Theorem add_to_fresh_buffer (state_dim action_dim max_size : nat) (other : buffer) (i : nat) :
  i < max_size ->
  size (add_transitions (init state_dim action_dim max_size) other)
    = max_size + length (state other) /\
  rows_at (add_transitions (init state_dim action_dim max_size) other) [i]
  = {| mb_state := [repeat 0%Q state_dim]; mb_action := [repeat 0%Q action_dim];
       mb_next_state := [repeat 0%Q state_dim]; mb_reward := [0%Q]; mb_not_done := [0%Q];
       mb_flag := [0%Q]; mb_weight := [1%Q]; mb_timeout := [1%Q] |}.
Proof.
  intros Hi. split.
  - simpl. rewrite length_app, repeat_length. reflexivity.
  - unfold rows_at. simpl. rewrite !app_nth1 by (rewrite repeat_length; exact Hi).
    rewrite !nth_repeat_lt by exact Hi. reflexivity.
Qed.

(** X11: After [convert_d4rl] of a dataset with one row count [n >= 1],
    [sample] succeeds for every batch size and every draw: it reads
    [batch_size] rows below [n], their [not_done] is [1 - terminal], and
    every weight is 1. *)
Theorem convert_then_sample (rb : buffer) (ds : d4rl) (batch_size : nat) (rng : nat -> nat) :
  wf_d4rl ds -> 1 <= length (observations ds) ->
  exists ind mb, sample (convert_d4rl rb ds) batch_size rng = Ok mb /\
    length ind = batch_size /\ Forall (fun i => i < length (observations ds)) ind /\
    mb_state mb = map (fun i => nth i (observations ds) []) ind /\
    mb_action mb = map (fun i => nth i (actions ds) []) ind /\
    mb_not_done mb = map (fun i => 1 - nth i (terminals ds) 0)%Q ind /\
    mb_weight mb = repeat 1%Q batch_size.
Proof.
  intros (Ha & Hn & Hr & Ht & Hf & Ho) H1.
  destruct (randint_ok (length (observations ds)) batch_size rng H1) as [Hi Hlt].
  set (ind := map (fun j => rng j mod length (observations ds)) (seq 0 batch_size)) in *.
  assert (Hw : forall (l : list Q) d, length l = length (observations ds) ->
                 gather l ind = Ok (map (fun i => nth i l d) ind)).
  { intros l d Hl. apply gather_ok. eapply Forall_lt_weaken; [|exact Hlt]. lia. }
  assert (Hw' : forall (l : list (list Q)), length l = length (observations ds) ->
                 gather l ind = Ok (map (fun i => nth i l []) ind)).
  { intros l Hl. apply gather_ok. eapply Forall_lt_weaken; [|exact Hlt]. lia. }
  exists ind. eexists. split.
  - unfold sample. simpl. rewrite Hi. simpl.
    rewrite (Hw' (observations ds)) by reflexivity. simpl.
    rewrite (Hw' (actions ds)) by exact Ha. simpl.
    rewrite (Hw' (next_observations ds)) by exact Hn. simpl.
    rewrite (Hw (rewards ds) 0%Q) by exact Hr. simpl.
    rewrite (Hw (map (fun t => 1 - t)%Q (terminals ds)) 0%Q) by (rewrite length_map; exact Ht).
    simpl. rewrite (Hw (flags ds) 0%Q) by exact Hf. simpl.
    rewrite (Hw (repeat 1%Q (length (rewards ds))) 0%Q) by (rewrite repeat_length; exact Hr).
    simpl. rewrite (Hw (timeouts ds) 0%Q) by exact Ho. simpl. reflexivity.
  - simpl. split; [unfold ind; rewrite length_map, length_seq; reflexivity|].
    split; [exact Hlt|]. split; [reflexivity|]. split; [reflexivity|]. split.
    + apply map_ext_in. intros i Hin. rewrite Forall_forall in Hlt. specialize (Hlt i Hin).
      rewrite (nth_indep _ 0%Q (1 - 0)%Q) by (rewrite length_map; lia).
      rewrite (map_nth (fun t => 1 - t)%Q). reflexivity.
    + rewrite (map_ext_in _ (fun _ => 1%Q)).
      * rewrite map_const. unfold ind. rewrite length_map, length_seq. reflexivity.
      * intros i Hin. rewrite Forall_forall in Hlt. specialize (Hlt i Hin).
        apply nth_repeat_lt. lia.
Qed.

Lemma gather_map {A B : Type} (f : A -> B) (col : list A) (ind : list nat) :
  gather (map f col) ind = (l <- gather col ind ;; Ok (map f l)).
Proof.
  induction ind as [|i ind IH]; simpl; [reflexivity|].
  rewrite nth_error_map. destruct (nth_error col i); simpl; [|reflexivity].
  rewrite IH. destruct (gather col ind); reflexivity.
Qed.

(** X12: Normalising the states of a buffer and then sampling is sampling and
    then normalising the sampled states and next states, for every draw. *)
Theorem normalize_commutes_with_sample (rb : buffer) (mean std : list Q) (batch_size : nat)
    (rng : nat -> nat) :
  sample (normalize_states rb mean std) batch_size rng
  = (mb <- sample rb batch_size rng ;;
     Ok {| mb_state := map (normalize_row mean std) (mb_state mb); mb_action := mb_action mb;
           mb_next_state := map (normalize_row mean std) (mb_next_state mb);
           mb_reward := mb_reward mb; mb_not_done := mb_not_done mb; mb_flag := mb_flag mb;
           mb_weight := mb_weight mb; mb_timeout := mb_timeout mb |}).
Proof.
  unfold sample. simpl.
  destruct (randint 0 (size rb) batch_size rng) as [ind|]; simpl; [|reflexivity].
  rewrite !gather_map.
  destruct (gather (state rb) ind); simpl; [|reflexivity].
  destruct (gather (action rb) ind); simpl; [|reflexivity].
  destruct (gather (next_state rb) ind); simpl; [|reflexivity].
  destruct (gather (reward rb) ind); simpl; [|reflexivity].
  destruct (gather (not_done rb) ind); simpl; [|reflexivity].
  destruct (gather (flag rb) ind); simpl; [|reflexivity].
  destruct (gather (weight rb) ind); simpl; [|reflexivity].
  destruct (gather (timeout rb) ind); simpl; reflexivity.
Qed.

End BufferFacts.

(** ** Data selection: shapes, retention and weights *)
Section SelectorFacts.
Import Buffer Selector.
Local Open Scope Q_scope.

Lemma or_shift_length (mask index mask' : list bool) (k : nat) :
  or_shift mask index k = Ok mask' -> length mask' = length mask.
Proof.
  unfold or_shift. destruct (length mask =? length index)%nat; [|discriminate].
  intros H. injection H as <-. unfold map2. rewrite length_map, length_combine, length_seq. lia.
Qed.

Lemma assign_weights_length (mask : list bool) (w w' : list Q) (wd : Q) :
  assign_weights mask w wd = Ok w' -> length w' = length mask.
Proof.
  unfold assign_weights. destruct (length mask =? length w)%nat eqn:E; [|discriminate].
  apply Nat.eqb_eq in E. intros H. injection H as <-. unfold map2.
  rewrite length_map, length_combine. lia.
Qed.

Lemma rollback_loop_lengths D bar Sb Ab done decay ks st st' :
  rollback_loop D bar Sb Ab done decay ks st = Ok st' ->
  length (sel_mask st') = length (sel_mask st) /\
  (length (sel_weight st) = length (sel_mask st) ->
   length (sel_weight st') = length (sel_mask st)).
Proof.
  revert st. induction ks as [|k ks IH]; intros st H; simpl in H.
  - injection H as <-. auto.
  - destruct (rollback_iter D bar Sb Ab done decay k st) as [st1|] eqn:E; [|discriminate].
    simpl in H. destruct (IH st1 H) as [H1 H2].
    unfold rollback_iter in E.
    destruct (disc_call D [Sb; Ab]); simpl in E; [|discriminate].
    destruct (length (A:=Q) _ =? 1)%nat; [discriminate|].
    destruct (or_shift _ _ k) as [m'|] eqn:Eo; simpl in E; [|discriminate].
    destruct (assign_weights _ _ _) as [w'|] eqn:Ew; simpl in E; [|discriminate].
    injection E as <-. simpl in *.
    apply or_shift_length in Eo. apply assign_weights_length in Ew.
    split; [lia|]. intros _. rewrite H2; lia.
Qed.

Lemma set_last_zero_length (l nd : list Q) :
  set_last_zero l = Ok nd -> length nd = length l.
Proof.
  unfold set_last_zero. destruct l as [|x l]; [discriminate|].
  intros H. assert (E : nd = removelast (x :: l) ++ [0]) by congruence. subst nd.
  rewrite length_app, removelast_firstn_len, length_firstn. simpl. lia.
Qed.

Lemma filter_mask_length {A : Type} (m : list bool) (col : list A) :
  length m = length col -> length (filter_mask m col) = length (filter (fun b => b) m).
Proof.
  unfold filter_mask. rewrite length_map. revert col.
  induction m as [|b m IH]; intros [|x col] H; simpl in *; try discriminate; [reflexivity|].
  destruct b; simpl; rewrite IH by lia; reflexivity.
Qed.

Lemma filter_mask_in {A : Type} (m : list bool) (col : list A) (x : A) :
  In x (filter_mask m col) -> In x col.
Proof.
  unfold filter_mask. intros H. apply in_map_iff in H as [[b y] [<- Hy]].
  apply filter_In in Hy as [Hy _]. simpl. eapply in_combine_r. exact Hy.
Qed.

(** X13: The stage of [select_data] after the base mask, on a buffer with [n]
    rows in every column and a mask of length [n]: seven columns are
    filtered to the [size] of the result, at most [n]; the [timeout] column
    is left as it was, with its [n] rows. *)
Theorem select_from_mask_shapes (D : score) (rb rb' : buffer) (n : nat) (mask : list bool)
    (bar : Q) (rollback : nat) (decay weight_init : Q) :
  columns_have n rb -> length mask = n ->
  select_from_mask D rb mask bar rollback decay weight_init = Ok rb' ->
  (size rb' <= n)%nat /\
  length (state rb') = size rb' /\ length (action rb') = size rb' /\
  length (next_state rb') = size rb' /\ length (reward rb') = size rb' /\
  length (not_done rb') = size rb' /\ length (flag rb') = size rb' /\
  length (weight rb') = size rb' /\ timeout rb' = timeout rb.
Proof.
  intros (C1 & C2 & C3 & C4 & C5 & C6 & C7 & C8) Hm H.
  unfold select_from_mask in H.
  destruct (set_last_zero (not_done rb)) as [nd|] eqn:Enz; simpl in H; [|discriminate].
  assert (Hnd : length nd = n).
  { rewrite <- C5. exact (set_last_zero_length _ _ Enz). }
  destruct (done_of nd (timeout rb)) as [done|]; simpl in H; [|discriminate].
  destruct (rollback_loop _ _ _ _ _ _ _ _) as [st|] eqn:El; simpl in H; [|discriminate].
  injection H as <-. simpl.
  destruct (rollback_loop_lengths _ _ _ _ _ _ _ _ _ El) as [L1 L2]. simpl in L1, L2.
  rewrite length_map in L2. specialize (L2 ltac:(lia)).
  rewrite !filter_mask_length by lia.
  repeat split; try reflexivity.
  pose proof (filter_length_le (fun b => b) (sel_mask st)). lia.
Qed.

(** X14: The rollback loop never removes a transition from the mask: every
    transition of the base mask is retained. *)
Theorem rollback_keeps_mask D bar Sb Ab done decay ks st st' (i : nat) :
  rollback_loop D bar Sb Ab done decay ks st = Ok st' ->
  nth i (sel_mask st) false = true -> nth i (sel_mask st') false = true.
Proof.
  revert st. induction ks as [|k ks IH]; intros st H Hi; simpl in H.
  - injection H as <-. exact Hi.
  - destruct (rollback_iter D bar Sb Ab done decay k st) as [st1|] eqn:E; [|discriminate].
    simpl in H. apply (IH st1 H).
    unfold rollback_iter in E.
    destruct (disc_call D [Sb; Ab]); simpl in E; [|discriminate].
    destruct (length (A:=Q) _ =? 1)%nat; [discriminate|].
    destruct (or_shift _ _ k) as [m'|] eqn:Eo; simpl in E; [|discriminate].
    destruct (assign_weights _ _ _); simpl in E; [|discriminate].
    injection E as <-. simpl. rewrite (or_shift_nth _ _ _ _ _ Eo), Hi.
    destruct (_ <? _)%nat; reflexivity.
Qed.

Lemma assign_weights_masked (mask : list bool) (w w' : list Q) (wd : Q) (i : nat) :
  assign_weights mask w wd = Ok w' -> nth i mask false = true -> wd <= nth i w' 0.
Proof.
  unfold assign_weights. destruct (length mask =? length w)%nat eqn:E; [|discriminate].
  apply Nat.eqb_eq in E. intros H. injection H as <-. unfold map2.
  revert w i E. induction mask as [|m mask IH]; intros [|x w] i E Hi; simpl in *;
    try discriminate; [destruct i; discriminate|].
  destruct i as [|i].
  - subst m. simpl. destruct (Qlt_bool x wd) eqn:B; [apply Qle_refl|].
    unfold Qlt_bool in B. apply negb_false_iff, Qle_bool_iff in B. exact B.
  - apply IH; [lia|exact Hi].
Qed.

(** X15: After [rollback >= 1] iterations, every retained transition has weight
    at least [weight_init * decay ^ (rollback - 1)], the value assigned in the
    last iteration, whatever the discriminator and the initial weights. *)
Theorem retained_weight_floor D bar Sb Ab done (decay weight_init : Q) (mask0 : list bool)
    (w0 : list Q) (k : nat) (st' : sel_state) (i : nat) :
  rollback_loop D bar Sb Ab done decay (seq 0 (S k))
    {| sel_mask := mask0; sel_weight := w0; sel_wd := weight_init |} = Ok st' ->
  nth i (sel_mask st') false = true ->
  weight_init * decay ^ Z.of_nat k <= nth i (sel_weight st') 0.
Proof.
  intros H Hi. rewrite seq_S, rollback_loop_app in H.
  destruct (rollback_loop D bar Sb Ab done decay (seq 0 k) _) as [stk|] eqn:Hk; [|discriminate].
  simpl in H.
  destruct (rollback_iter D bar Sb Ab done decay k stk) as [st1|] eqn:E; [|discriminate].
  simpl in H. injection H as ->.
  pose proof (rollback_loop_wd _ _ _ _ _ _ _ _ _ Hk) as Hwd.
  rewrite length_seq in Hwd. simpl sel_wd in Hwd.
  unfold rollback_iter in E.
  destruct (disc_call D [Sb; Ab]); simpl in E; [|discriminate].
  destruct (length (A:=Q) _ =? 1)%nat; [discriminate|].
  destruct (or_shift _ _ _) as [m'|]; simpl in E; [|discriminate].
  destruct (assign_weights _ _ _) as [w'|] eqn:Ew; simpl in E; [|discriminate].
  injection E as <-. simpl in Hi |- *.
  rewrite <- Hwd. exact (assign_weights_masked _ _ _ _ _ Ew Hi).
Qed.

(** X16: With [rollback = 0], on a buffer from [convert_d4rl], the stage keeps
    exactly the base mask's transitions and every weight it keeps is 0
    ([weight - 1] of the weights 1 set by [convert_d4rl]). *)
Theorem rollback_zero_weights (D : score) (rb rb' : buffer) (ds : d4rl) (mask : list bool)
    (bar decay weight_init : Q) :
  select_from_mask D (convert_d4rl rb ds) mask bar 0 decay weight_init = Ok rb' ->
  state rb' = filter_mask mask (observations ds) /\ Forall (fun w => w == 0) (weight rb').
Proof.
  unfold select_from_mask. simpl.
  destruct (set_last_zero _) as [nd|]; simpl; [|discriminate].
  destruct (done_of nd _) as [done|]; simpl; [|discriminate].
  intros H. injection H as <-. simpl. split; [reflexivity|].
  apply Forall_forall. intros w Hw. apply filter_mask_in in Hw.
  apply in_map_iff in Hw as [x [<- Hx]]. apply repeat_spec in Hx. subst x.
  reflexivity.
Qed.

End SelectorFacts.

(** ** Policy and alpha losses *)
Section TrainerFacts.
Local Open Scope R_scope.

Definition sumR (l : list R) : R := fold_right Rplus 0 l.

Lemma sumR_app (l1 l2 : list R) : sumR (l1 ++ l2) = sumR l1 + sumR l2.
Proof. induction l1 as [|x l1 IH]; simpl; [lra|]. unfold sumR in *. rewrite IH. lra. Qed.

Lemma sumR_map_mul {A : Type} (f : A -> R) (c : R) (l : list A) :
  sumR (map (fun x => f x * c) l) = sumR (map f l) * c.
Proof. induction l as [|x l IH]; simpl; [lra|]. unfold sumR in *. simpl in *. rewrite IH. lra. Qed.

Lemma sumR_opp (l : list R) : sumR (map Ropp l) = - sumR l.
Proof. induction l as [|x l IH]; simpl; [lra|]. unfold sumR in *. simpl in *. rewrite IH. lra. Qed.

Lemma sumR_repeat (c : R) (n : nat) : sumR (repeat c n) = INR n * c.
Proof.
  induction n as [|n IH]; simpl; [lra|]. unfold sumR in *. simpl. rewrite IH.
  destruct n; simpl; lra.
Qed.

(** The mean of the broadcast (B,B) product is the product of the means. *)
Lemma mean_bcast_mul (v : list R) (col : list (list R)) :
  Trainer.mean (concat (Trainer.bcast_mul v col))
  = Trainer.mean v * Trainer.mean (map (hd 0) col).
Proof.
  unfold Trainer.mean, Trainer.bcast_mul.
  assert (Hs : sumR (concat (map (fun r => map (fun x => x * hd 0 r) v) col))
               = sumR v * sumR (map (hd 0) col)).
  { induction col as [|r col IH]; simpl; [unfold sumR; simpl; lra|].
    rewrite sumR_app, IH, (sumR_map_mul (fun x => x)), map_id.
    unfold sumR. simpl. lra. }
  assert (Hl : length (concat (map (fun r => map (fun x => x * hd 0 r) v) col))
               = (length col * length v)%nat).
  { clear Hs. induction col as [|r col IH]; simpl; [reflexivity|].
    rewrite length_app, IH, length_map. reflexivity. }
  unfold sumR in Hs. unfold Rdiv. rewrite Hs, Hl, length_map, mult_INR, Rinv_mult. ring.
Qed.

(** X17: The first term of [p_loss] (line 552) is the mean of the negated summed
    log densities on the D_s minibatch times the mean of its weights,
    whether or not alpha is tuned. *)
Theorem policy_loss_mean_product (automatic_alpha_tuning : bool) (alpha log_alpha epsilon : R)
    (log_pi_s log_pi_e log_pi_e_e weight_s : list (list R)) :
  let r := Trainer.train_policy_losses automatic_alpha_tuning alpha log_alpha epsilon
             log_pi_s log_pi_e log_pi_e_e weight_s in
  Trainer.ps_p_loss r
  = Trainer.mean (map Ropp (Trainer.sum_dim1 log_pi_s)) * Trainer.mean (map (hd 0) weight_s)
    + Trainer.ps_alpha r * Trainer.mean (map Ropp (Trainer.sum_dim1 log_pi_e)).
Proof.
  cbv zeta. unfold Trainer.train_policy_losses.
  destruct automatic_alpha_tuning; simpl; rewrite mean_bcast_mul; reflexivity.
Qed.

(** X18: When every D_s weight of the minibatch is the same value [c] (as after
    [convert_d4rl], whose weights are all 1), the code's policy loss is the
    per-sample weighted loss. *)
Theorem policy_loss_uniform_weights (automatic_alpha_tuning : bool) (alpha log_alpha epsilon c : R)
    (log_pi_s log_pi_e log_pi_e_e weight_s : list (list R)) :
  Forall (fun w => hd 0 w = c) weight_s -> length weight_s = length log_pi_s ->
  let r := Trainer.train_policy_losses automatic_alpha_tuning alpha log_alpha epsilon
             log_pi_s log_pi_e log_pi_e_e weight_s in
  Trainer.ps_p_loss r = Trainer.spec_p_loss (Trainer.ps_alpha r) log_pi_s log_pi_e weight_s.
Proof.
  intros Hw Hl. cbv zeta.
  assert (Hc : map (hd 0) weight_s = repeat c (length log_pi_s)).
  { rewrite <- Hl. clear Hl. induction Hw as [|w ws Hw Hws IH]; simpl; [reflexivity|].
    rewrite Hw, IH. reflexivity. }
  assert (Hm : forall r, Trainer.ps_p_loss r
                = Trainer.mean (concat (Trainer.bcast_mul (map Ropp (Trainer.sum_dim1 log_pi_s)) weight_s))
                  + Trainer.ps_alpha r * Trainer.mean (map Ropp (Trainer.sum_dim1 log_pi_e)) ->
               Trainer.ps_p_loss r = Trainer.spec_p_loss (Trainer.ps_alpha r) log_pi_s log_pi_e weight_s).
  { intros r Hr. rewrite Hr, mean_bcast_mul, Hc. unfold Trainer.spec_p_loss. rewrite Hc.
    set (L := Trainer.sum_dim1 log_pi_s).
    assert (HL : length L = length log_pi_s) by (unfold L, Trainer.sum_dim1; apply length_map).
    assert (H2 : map2 (fun l w => - l * w) L (repeat c (length log_pi_s))
                 = map (fun l => Ropp l * c) L).
    { rewrite <- HL. clear. induction L as [|x L IH]; simpl; [reflexivity|].
      unfold map2 in *. simpl. rewrite IH. reflexivity. }
    rewrite H2. unfold Trainer.mean.
    change (fold_right Rplus 0 (map (fun l => Ropp l * c) L)) with (sumR (map (fun l => Ropp l * c) L)).
    change (fold_right Rplus 0 (map Ropp L)) with (sumR (map Ropp L)).
    change (fold_right Rplus 0 (repeat c (length log_pi_s))) with (sumR (repeat c (length log_pi_s))).
    change (fold_right Rplus 0 (map Ropp (Trainer.sum_dim1 log_pi_e)))
      with (sumR (map Ropp (Trainer.sum_dim1 log_pi_e))).
    rewrite (sumR_map_mul Ropp), !sumR_opp, sumR_repeat, !length_map, repeat_length, HL.
    destruct (length log_pi_s) as [|n].
    - simpl. unfold Rdiv. rewrite Rinv_0. unfold sumR. ring.
    - unfold sumR, Rdiv. set (I := / INR (length (Trainer.sum_dim1 log_pi_e))).
      field. apply not_0_INR. discriminate. }
  apply Hm. unfold Trainer.train_policy_losses.
  destruct automatic_alpha_tuning; reflexivity.
Qed.

(** X19: [alpha = exp(log_alpha)] is positive; the alpha loss, whose second factor
    is detached, has its own value as derivative in [log_alpha]; it is
    positive exactly when the reference policy's mean log density on D_e is
    below the student's plus [epsilon], so that a gradient step lowers
    [log_alpha] in that case. *)
Theorem alpha_loss_gradient (log_alpha epsilon : R) (log_pi log_pi_e : list R) :
  let r := Trainer.alpha_and_alpha_loss log_alpha epsilon log_pi log_pi_e in
  0 < fst r /\
  derivable_pt_lim (fun la => snd (Trainer.alpha_and_alpha_loss la epsilon log_pi log_pi_e))
    log_alpha (snd r) /\
  (0 < snd r <-> Trainer.mean log_pi_e < Trainer.mean log_pi + epsilon).
Proof.
  cbv zeta. unfold Trainer.alpha_and_alpha_loss. simpl.
  set (C := Trainer.mean log_pi + epsilon - Trainer.mean log_pi_e).
  pose proof (exp_pos log_alpha) as He.
  split; [exact He|]. split.
  - apply (derivable_pt_lim_scal_right exp log_alpha (exp log_alpha) C).
    apply derivable_pt_lim_exp.
  - split.
    + intros H. destruct (Rle_or_lt C 0) as [Hc|Hc]; [|unfold C in Hc; lra].
      exfalso. assert (exp log_alpha * C <= exp log_alpha * 0)
        by (apply Rmult_le_compat_l; lra). lra.
    + intros H. apply Rmult_lt_0_compat; [exact He|unfold C; lra].
Qed.

End TrainerFacts.

(** ** Actor outputs *)
Section ActorFacts.
Local Open Scope R_scope.

Lemma clip_in (x lo hi : R) : lo <= hi -> lo <= Discriminator.clip x lo hi <= hi.
Proof.
  intros H. unfold Discriminator.clip. split.
  - apply Rmin_glb; [apply Rmax_r|exact H].
  - apply Rmin_r.
Qed.

Lemma tanh_bounds (x : R) : -1 < tanh x < 1.
Proof.
  unfold tanh, sinh, cosh.
  pose proof (exp_pos x) as Ha. pose proof (exp_pos (- x)) as Hb.
  set (a := exp x) in *. set (b := exp (- x)) in *.
  replace ((a - b) / 2 / ((a + b) / 2)) with ((a - b) * / (a + b)) by (field; lra).
  assert (Hi : 0 < / (a + b)) by (apply Rinv_0_lt_compat; lra).
  assert (E : (a + b) * / (a + b) = 1) by (apply Rinv_r; lra).
  split; apply (Rmult_lt_reg_r (a + b)); try lra;
    rewrite Rmult_assoc, Rinv_l by lra; lra.
Qed.

Lemma EPS_bounds : 0 < Actor.EPS < 1.
Proof.
  unfold Actor.EPS. split.
  - apply Rinv_0_lt_compat. simpl. lra.
  - rewrite <- Rinv_1. apply Rinv_lt_contravar; simpl; lra.
Qed.

(** X20: [_get_outputs]: the mean is clipped to [MEAN_MIN, MEAN_MAX] = [-9, 9],
    the scale [exp(log_sigma)] lies in [exp(-5), exp 2], so it is positive,
    and the tanh mode lies strictly within (-1, 1), whatever the weights and
    the state. *)
Theorem actor_outputs_bounded (p : Actor.params) (s : list R) :
  let o := Actor.get_outputs p s in
  Forall (fun m => -9 <= m <= 9) (fst (fst o)) /\
  Forall (fun x => exp (-5) <= x <= exp 2 /\ 0 < x) (snd (fst o)) /\
  Forall (fun t => -1 < t < 1) (snd o) /\
  snd o = map tanh (fst (fst o)).
Proof.
  cbv zeta. unfold Actor.get_outputs. cbv zeta. simpl.
  split; [|split; [|split]].
  - apply Forall_forall. intros m Hm. apply in_map_iff in Hm as [x [<- _]].
    apply clip_in. unfold Actor.MEAN_MIN, Actor.MEAN_MAX. lra.
  - apply Forall_forall. intros y Hy. apply in_map_iff in Hy as [z [<- Hz]].
    apply in_map_iff in Hz as [x [<- _]].
    destruct (clip_in x Actor.LOG_STD_MIN Actor.LOG_STD_MAX) as [H1 H2];
      [unfold Actor.LOG_STD_MIN, Actor.LOG_STD_MAX; lra|].
    unfold Actor.LOG_STD_MIN, Actor.LOG_STD_MAX in *.
    split; [|apply exp_pos]. split.
    + destruct (Req_dec (-5) (Discriminator.clip x (-5) 2)) as [E|E];
        [rewrite <- E; lra|apply Rlt_le, exp_increasing; lra].
    + destruct (Req_dec (Discriminator.clip x (-5) 2) 2) as [E|E];
        [rewrite E; lra|apply Rlt_le, exp_increasing; lra].
  - apply Forall_forall. intros t Ht. apply in_map_iff in Ht as [x [<- _]]. apply tanh_bounds.
  - reflexivity.
Qed.

(** X21: [get_log_density] clips the action to [-1 + EPS, 1 - EPS]: every
    component it scores lies strictly within (-1, 1), where the inverse of
    the tanh transform is finite. *)
Theorem clip_action_open_interval (action : list R) :
  length (Actor.clip_action action) = length action /\
  Forall (fun x => -1 + Actor.EPS <= x <= 1 - Actor.EPS /\ -1 < x < 1) (Actor.clip_action action).
Proof.
  split; [apply length_map|].
  destruct EPS_bounds as [E1 E2].
  apply Forall_forall. intros y Hy. apply in_map_iff in Hy as [x [<- _]].
  destruct (clip_in x (-1 + Actor.EPS) (1 - Actor.EPS)) as [H1 H2]; [lra|].
  split; [split; assumption|lra].
Qed.

End ActorFacts.

(** ** Online rewards, returns and offline labels *)
Section OnlineFacts.
Local Open Scope R_scope.

(** X22: [cal_returns] iterates over [range(len(rewards), -1)], which is empty:
    it returns an empty array for every input, never running its body. *)
Theorem cal_returns_empty (rewards dones : list R) (discount : R) :
  Online.cal_returns rewards dones discount = Ok [].
Proof.
  unfold Online.cal_returns, Online.py_range.
  replace (Z.to_nat (-1 - Z.of_nat (length rewards))) with 0%nat by lia.
  reflexivity.
Qed.

(** X23: Line 84 of [sample_online]: for a discriminator score in (0, 1) and
    positive [y] and [alpha], the reward lies in (0, 1) and strictly
    decreases as the score grows. *)
Theorem online_reward_decreasing (d1 d2 y alpha : R) :
  0 < d1 -> d1 < d2 -> d2 < 1 -> 0 < y -> 0 < alpha ->
  0 < Online.online_reward d2 y alpha /\
  Online.online_reward d2 y alpha < Online.online_reward d1 y alpha /\
  Online.online_reward d1 y alpha < 1.
Proof.
  intros H1 H12 H2 Hy Ha. unfold Online.online_reward.
  set (t := fun d => d / (1 - d) / y / alpha).
  change (d1 / (1 - d1) / y / alpha) with (t d1).
  change (d2 / (1 - d2) / y / alpha) with (t d2).
  assert (Hiy : 0 < / y) by (apply Rinv_0_lt_compat; exact Hy).
  assert (Hia : 0 < / alpha) by (apply Rinv_0_lt_compat; exact Ha).
  assert (Hpos : forall d, 0 < d < 1 -> 0 < t d).
  { intros d Hd. unfold t, Rdiv. repeat apply Rmult_lt_0_compat; try lra.
    apply Rinv_0_lt_compat. lra. }
  assert (Hinc : t d1 < t d2).
  { unfold t, Rdiv. apply Rmult_lt_compat_r; [exact Hia|]. apply Rmult_lt_compat_r; [exact Hiy|].
    assert (Hinv : / (1 - d1) < / (1 - d2)) by (apply Rinv_lt_contravar; [apply Rmult_lt_0_compat; lra|lra]).
    apply Rmult_le_0_lt_compat; try lra.
    apply Rlt_le, Rinv_0_lt_compat. lra. }
  pose proof (Hpos d1 ltac:(lra)) as P1. pose proof (Hpos d2 ltac:(lra)) as P2.
  unfold Rdiv. rewrite !Rmult_1_l. split; [|split].
  - apply Rinv_0_lt_compat. lra.
  - apply Rinv_lt_contravar; [apply Rmult_lt_0_compat|]; lra.
  - rewrite <- Rinv_1 at 2. apply Rinv_lt_contravar; lra.
Qed.

End OnlineFacts.

(** ** GPU selection *)
Section DeviceFacts.
Local Open Scope Z_scope.

Lemma select_loop_app (pre rest : list (Z * Z)) (f : Z) (idx : option Z) (m : Z) :
  Forall (fun l => snd l < f) pre -> (idx = None \/ m < f) ->
  exists idx' m', Device.select_loop (pre ++ rest) idx m = Device.select_loop rest idx' m' /\
                  (idx' = None \/ m' < f).
Proof.
  intros Hpre. revert idx m. induction Hpre as [|[j g] pre Hg Hpre IH]; intros idx m Hm.
  - exists idx, m. split; [reflexivity|exact Hm].
  - simpl in Hg |- *.
    destruct (match idx with None => true | Some _ => false end || (m <? g)).
    + apply IH. right. exact Hg.
    + apply IH. exact Hm.
Qed.

Lemma select_loop_keep (post : list (Z * Z)) (i f : Z) :
  Forall (fun l => snd l <= f) post -> Device.select_loop post (Some i) f = (Some i, f).
Proof.
  induction 1 as [|[j g] post Hg Hpost IH]; simpl in *; [reflexivity|].
  replace (f <? g) with false by (symmetry; apply Z.ltb_ge; exact Hg). exact IH.
Qed.

(** X24: Lines 112-119: the loop keeps the first line with the most free memory:
    if line [(i, f)] has strictly more free memory than every line before it
    and at least as much as every line after it, the selected GPU is [i],
    with [f] MiB free. *)
Theorem select_free_gpu_first_max (pre post : list (Z * Z)) (i f : Z) :
  Forall (fun l => snd l < f) pre -> Forall (fun l => snd l <= f) post ->
  Device.select_free_gpu (pre ++ (i, f) :: post) = (Some i, f).
Proof.
  intros Hpre Hpost. unfold Device.select_free_gpu.
  destruct (select_loop_app pre ((i, f) :: post) f None 0 Hpre (or_introl eq_refl))
    as (idx & m & -> & Hm).
  simpl. replace (match idx with None => true | Some _ => false end || (m <? f)) with true.
  - apply select_loop_keep. exact Hpost.
  - destruct Hm as [-> | Hm]; [reflexivity|].
    destruct idx; simpl; [symmetry; apply Z.ltb_lt; exact Hm|reflexivity].
Qed.

End DeviceFacts.

(** ** Offline reward labelling *)
Section LabelsFacts.
Import String.
Local Open Scope R_scope.

Lemma ln_0 : ln 0 = 0.
Proof. unfold ln. destruct (Rlt_dec 0 0) as [H|H]; [exfalso; exact (Rlt_irrefl 0 H)|reflexivity]. Qed.

Lemma ln_le_mono (x y : R) : 0 < x -> x <= y -> ln x <= ln y.
Proof.
  intros Hx Hxy. destruct (Rle_lt_or_eq_dec x y Hxy) as [H|H].
  - apply Rlt_le, ln_increasing; assumption.
  - subst. apply Rle_refl.
Qed.

(** X25: Lines 51-52: the relabelled reward [log(d / (1 - d))] lies within
    [-log 9, log 9], the discriminator's output being clipped to [0.1, 0.9]. *)
Theorem label_row_bounded (p : Discriminator.params) (o a : list R) :
  - ln 9 <= Labels.label_row p o a <= ln 9.
Proof.
  unfold Labels.label_row.
  assert (Hl9 : 0 < ln 9) by (rewrite <- ln_1; apply ln_increasing; lra).
  destruct (Discriminator.forward_row p o a) as [|d ds] eqn:E; simpl.
  - unfold Rdiv. rewrite Rmult_0_l, ln_0. lra.
  - assert (Hd : 1/10 <= d <= 9/10) by (apply (forward_row_bounds p o a); rewrite E; left; reflexivity).
    assert (Hlo : / 9 <= d / (1 - d)).
    { replace (d / (1 - d)) with (/ 9 + (10 * d - 1) * / (9 * (1 - d))) by (field; lra).
      assert (0 <= (10 * d - 1) * / (9 * (1 - d))) by (apply Rle_mult_inv_pos; lra). lra. }
    assert (Hhi : d / (1 - d) <= 9).
    { replace (d / (1 - d)) with (9 - (9 - 10 * d) * / (1 - d)) by (field; lra).
      assert (0 <= (9 - 10 * d) * / (1 - d)) by (apply Rle_mult_inv_pos; lra). lra. }
    assert (Hpos : 0 < / 9) by (apply Rinv_0_lt_compat; lra).
    split.
    + rewrite <- ln_Rinv by lra. apply ln_le_mono; assumption.
    + apply ln_le_mono; lra.
Qed.

Lemma set_at_length (l l' : list R) (i : nat) (v : R) :
  Labels.set_at l i v = Some l' -> List.length l' = List.length l.
Proof.
  unfold Labels.set_at. destruct (Nat.ltb_spec i (List.length l)) as [H|H]; [|discriminate].
  intros E. assert (E' : l' = firstn i l ++ v :: skipn (S i) l) by congruence. subst l'.
  rewrite length_app, length_firstn, length_cons, length_skipn. lia.
Qed.

Lemma set_at_some (l : list R) (i : nat) (v : R) :
  (i < List.length l)%nat -> exists l', Labels.set_at l i v = Some l'.
Proof.
  intros H. unfold Labels.set_at. apply Nat.ltb_lt in H. rewrite H. eexists. reflexivity.
Qed.

Lemma lookup_set_col_same (k : string) (v w : list R) (ds : Labels.np_dict) :
  Labels.lookup k (Labels.d_cols ds) = Some w ->
  Labels.lookup k (Labels.d_cols (Labels.set_col k v ds)) = Some v.
Proof.
  unfold Labels.set_col. simpl. induction (Labels.d_cols ds) as [|[k0 v0] cols IH]; simpl;
    [discriminate|].
  destruct (String.eqb k0 k) eqn:E; simpl.
  - rewrite String.eqb_refl. reflexivity.
  - rewrite E. exact IH.
Qed.

Lemma lookup_set_col_other (k k' : string) (v : list R) (ds : Labels.np_dict) :
  k' <> k ->
  Labels.lookup k' (Labels.d_cols (Labels.set_col k v ds)) = Labels.lookup k' (Labels.d_cols ds).
Proof.
  intros Hne. unfold Labels.set_col. simpl.
  induction (Labels.d_cols ds) as [|[k0 v0] cols IH]; simpl; [reflexivity|].
  destruct (String.eqb k0 k) eqn:E; simpl.
  - apply String.eqb_eq in E. subst k0.
    assert (Hf : String.eqb k k' = false) by (apply String.eqb_neq; congruence).
    rewrite Hf. exact IH.
  - destruct (String.eqb k0 k'); [reflexivity|exact IH].
Qed.

(** What the loops of [label_offline_reward] keep of the dictionary. *)
Definition keeps (ds0 ds : Labels.np_dict) : Prop :=
  Labels.d_obs ds = Labels.d_obs ds0 /\ Labels.d_act ds = Labels.d_act ds0 /\
  (exists rw0 rw, Labels.lookup "rewards" (Labels.d_cols ds0) = Some rw0 /\
     Labels.lookup "rewards" (Labels.d_cols ds) = Some rw /\ List.length rw = List.length rw0) /\
  Labels.lookup "reward" (Labels.d_cols ds) = Labels.lookup "reward" (Labels.d_cols ds0).

Lemma rewards_neq : ("reward" <> "rewards")%string.
Proof. discriminate. Qed.

Lemma store_reward_keeps (ds0 ds ds' : Labels.np_dict) (i : nat) (v : R) :
  Labels.store_reward ds i v = inl ds' -> keeps ds0 ds -> keeps ds0 ds'.
Proof.
  intros Hs (Ho & Ha & (rw0 & rw & H0 & Hr & Hl) & Hk).
  unfold Labels.store_reward in Hs. rewrite Hr in Hs.
  destruct (Labels.set_at rw i v) as [rw'|] eqn:Ea; [|discriminate].
  assert (E : ds' = Labels.set_col "rewards" rw' ds) by congruence. subst ds'.
  split; [exact Ho|]. split; [exact Ha|]. split.
  - exists rw0, rw'. split; [exact H0|]. split.
    + exact (lookup_set_col_same _ _ _ _ Hr).
    + rewrite (set_at_length _ _ _ _ Ea). exact Hl.
  - rewrite lookup_set_col_other by exact rewards_neq. exact Hk.
Qed.

Lemma keeps_refl (ds : Labels.np_dict) (rw : list R) :
  Labels.lookup "rewards" (Labels.d_cols ds) = Some rw -> keeps ds ds.
Proof. intros H. repeat split; try reflexivity. exists rw, rw. auto. Qed.

Lemma fold_err {A : Type} (f : Labels.result A -> nat -> Labels.result A) (l : list nat)
    (e : Labels.error) :
  (forall e' i, f (inr e') i = inr e') -> fold_left f l (inr e) = inr e.
Proof.
  intros Hf. induction l as [|i l IH]; simpl; [reflexivity|]. rewrite Hf. exact IH.
Qed.

Lemma relabel_fold_keeps (size1_to_scalar : bool) (p : Discriminator.params)
    (ds0 : Labels.np_dict) (idx : list nat) :
  forall ds ds', keeps ds0 ds ->
  fold_left (Labels.relabel_step size1_to_scalar p) idx (inl ds) = inl ds' -> keeps ds0 ds'.
Proof.
  induction idx as [|i idx IH]; intros ds ds' Hk H; simpl in H.
  - assert (E : ds' = ds) by congruence. subst ds'. exact Hk.
  - destruct (nth_error (Labels.d_obs ds) i) as [o|];
      [|rewrite fold_err in H by reflexivity; discriminate].
    destruct (nth_error (Labels.d_act ds) i) as [a|];
      [|rewrite fold_err in H by reflexivity; discriminate].
    destruct (Discriminator.forward p [o] [a]);
      [|rewrite fold_err in H by reflexivity; discriminate].
    destruct (Labels.lookup "rewards" (Labels.d_cols ds));
      [|rewrite fold_err in H by reflexivity; discriminate].
    destruct (_ <? _)%nat; [|rewrite fold_err in H by reflexivity; discriminate].
    destruct (_ && _); [|rewrite fold_err in H by reflexivity; discriminate].
    destruct (Labels.store_reward ds i (Labels.label_row p o a)) as [ds1|] eqn:Es;
      [|rewrite fold_err in H by reflexivity; discriminate].
    exact (IH ds1 ds' (store_reward_keeps ds0 ds ds1 i _ Es Hk) H).
Qed.

(** X26: Line 58 reads [dataset['reward']], a key the D4RL dictionary does not
    have: on a dictionary with at least one row, a ['rewards'] column covering
    the observations, and no ['reward'] key, [label_offline_reward] raises
    [KeyError: 'reward'] whatever the scaling flag, when [use_offline] is set
    and, when it is not, whenever the relabelling of lines 50-52 went
    through (it can itself raise first: RuntimeError from the discriminator,
    ValueError from the store). *)
Theorem label_offline_reward_key_error (size1_to_scalar : bool) (p : Discriminator.params)
    (use_reward_scaling use_offline : bool) (ds : Labels.np_dict) (rw : list R) :
  Labels.d_obs ds <> [] ->
  Labels.lookup "rewards" (Labels.d_cols ds) = Some rw ->
  (List.length (Labels.d_obs ds) <= List.length rw)%nat ->
  Labels.lookup "reward" (Labels.d_cols ds) = None ->
  (use_offline = true \/
   exists ds1, fold_left (Labels.relabel_step size1_to_scalar p)
                 (seq 0 (List.length (Labels.d_obs ds))) (inl ds) = inl ds1) ->
  Labels.label_offline_reward size1_to_scalar p use_reward_scaling use_offline ds
    = inr (Labels.KeyError "reward").
Proof.
  intros Hne Hr Hlr Hk Hoff.
  assert (H1 : exists ds1, (if use_offline then inl ds
            else fold_left (Labels.relabel_step size1_to_scalar p)
                   (seq 0 (List.length (Labels.d_obs ds))) (inl ds))
            = inl ds1 /\ keeps ds ds1).
  { destruct use_offline.
    - exists ds. split; [reflexivity|]. exact (keeps_refl ds rw Hr).
    - destruct Hoff as [Hoff|[ds1 Hf]]; [discriminate|].
      exists ds1. split; [exact Hf|].
      exact (relabel_fold_keeps size1_to_scalar p ds _ ds ds1 (keeps_refl ds rw Hr) Hf). }
  destruct H1 as (ds1 & E1 & Ho & _ & (rw0 & rw1 & H0 & Hr1 & Hl1) & Hk1).
  rewrite Hr in H0. injection H0 as <-.
  unfold Labels.label_offline_reward. rewrite E1, Hr1.
  destruct rw1 as [|x rw1]; [destruct (Labels.d_obs ds); [congruence|simpl in *; lia]|].
  simpl Labels.py_max. simpl Labels.py_min. cbv iota.
  rewrite Ho. destruct (Labels.d_obs ds) as [|o obs]; [congruence|].
  simpl List.length. rewrite <- cons_seq. simpl fold_left at 1.
  rewrite Hk1, Hk. rewrite fold_err by reflexivity. reflexivity.
Qed.

End LabelsFacts.

(** ** Instances of the hypotheses above *)
Section SplitterInstances.
Import Splitter Datasets.
Local Open Scope nat_scope.

Lemma dataset_m_trajs_all_rows_witness :
  row_ends (row 1 false) = false /\
  trajectory_count ([row 0 false] ++ [row 1 false; row 2 true]) <= 1 /\
  exists d, dataset_m_trajs ([row 0 false] ++ [row 1 false; row 2 true]) 1 = Ok d /\
    observations d = [[0%Q]; [1%Q]] /\ next_observations d = [[1%Q]; [2%Q]].
Proof.
  assert (H1 : row_ends (row 1 false) = false) by reflexivity.
  assert (H2 : trajectory_count ([row 0 false] ++ [row 1 false; row 2 true]) <= 1)
    by (vm_compute; lia).
  split; [exact H1|]. split; [exact H2|].
  eexists. split; [exact (dataset_m_trajs_all_rows [row 0 false] (row 1 false) (row 2 true) 1 H1 H2)|].
  split; reflexivity.
Defined.

Lemma dataset_m_trajs_trailing_empty_witness :
  row_ends (row 0 true) = true /\ trajectory_count ([] ++ [row 0 true; row 1 false]) <= 2 /\
  dataset_m_trajs ([] ++ [row 0 true; row 1 false]) 2 = Raise ValueError.
Proof.
  assert (H1 : row_ends (row 0 true) = true) by reflexivity.
  assert (H2 : trajectory_count ([] ++ [row 0 true; row 1 false]) <= 2) by (vm_compute; lia).
  split; [exact H1|]. split; [exact H2|].
  exact (dataset_m_trajs_trailing_empty [] (row 0 true) (row 1 false) 2 H1 H2).
Defined.

Lemma split_expert_ranges_witness :
  1 <= 2 /\ 2 <= trajectory_count ds4 /\
  dataset_split_expert ds4 1 2
  = (de <- build (pick (collect false ds4) (seq 0 1)) ;;
     dsx <- build (pick (collect false ds4) (seq 1 1)) ;; Ok (de, Some dsx)).
Proof.
  assert (H1 : 1 <= 2) by lia.
  assert (H2 : 2 <= trajectory_count ds4) by (vm_compute; lia).
  split; [exact H1|]. split; [exact H2|].
  exact (split_expert_ranges ds4 1 2 H1 H2).
Defined.

Lemma get_datasets_zero_counts_witness :
  (0 = 0 \/ 1 = 0) /\ get_datasets ds4 ds4 0 1 1 = Raise ValueError.
Proof.
  assert (H : 0 = 0 \/ 1 = 0) by (left; reflexivity).
  split; [exact H|]. exact (get_datasets_zero_counts ds4 ds4 0 1 1 H).
Defined.

Lemma get_datasets_flags_witness :
  exists de dsf low x, get_datasets ds4 ds4 1 1 2 = Ok (de, dsf) /\
    dataset_m_trajs ds4 2 = Ok low /\
    dataset_split_expert ds4 1 2 = Ok (fbase de, Some x) /\
    fflag dsf = repeat false (length (terminals low)) ++ repeat true (length (terminals x)) /\
    fflag dsf = [false; false; false; true] /\
    Buffer.wf_d4rl (to_d4rl de) /\ Buffer.wf_d4rl (to_d4rl dsf).
Proof.
  destruct (get_datasets ds4 ds4 1 1 2) as [[de dsf]|e] eqn:E; [|vm_compute in E; discriminate].
  destruct (get_datasets_flags ds4 ds4 1 1 2 de dsf E)
    as (low & ox & Hl & Hs & _ & Hm & W1 & W2 & _).
  destruct ox as [x|]; [|vm_compute in E, Hs; injection E as <- <-; discriminate].
  destruct Hm as [_ Hf].
  exists de, dsf, low, x. split; [reflexivity|]. split; [exact Hl|]. split; [exact Hs|].
  split; [exact Hf|]. split; [vm_compute in E; injection E as <- <-; reflexivity|].
  split; assumption.
Defined.

End SplitterInstances.

Section BufferInstances.
Import Buffer.
Local Open Scope nat_scope.

Lemma columns_have_ds1 : columns_have 2 (convert_d4rl (init 1 1 4) ds1).
Proof. unfold columns_have. simpl. repeat split. Qed.

Lemma add_transitions_appends_witness :
  columns_have 2 (convert_d4rl (init 1 1 4) ds1) /\
  columns_have 4 (add_transitions (convert_d4rl (init 1 1 4) ds1) (convert_d4rl (init 1 1 4) ds1)) /\
  size (add_transitions (convert_d4rl (init 1 1 4) ds1) (convert_d4rl (init 1 1 4) ds1)) = 4.
Proof.
  destruct (add_transitions_appends (convert_d4rl (init 1 1 4) ds1) (convert_d4rl (init 1 1 4) ds1)
              2 2 columns_have_ds1 columns_have_ds1) as (H1 & H2 & _).
  split; [exact columns_have_ds1|]. split; [exact H1|exact H2].
Defined.

Lemma add_to_fresh_buffer_witness :
  1 < 2 /\
  size (add_transitions (init 1 1 2) (convert_d4rl (init 1 1 4) ds1)) = 4 /\
  mb_weight (rows_at (add_transitions (init 1 1 2) (convert_d4rl (init 1 1 4) ds1)) [1]) = [1%Q].
Proof.
  assert (H : 1 < 2) by lia.
  destruct (add_to_fresh_buffer 1 1 2 (convert_d4rl (init 1 1 4) ds1) 1 H) as [H1 H2].
  split; [exact H|]. split; [exact H1|]. rewrite H2. reflexivity.
Defined.

Lemma convert_then_sample_witness :
  wf_d4rl ds1 /\ 1 <= length (observations ds1) /\
  exists (ind : list nat) mb, sample (convert_d4rl (init 1 1 4) ds1) 3 (fun j => j) = Ok mb /\
    length ind = 3 /\ mb_weight mb = repeat 1%Q 3.
Proof.
  assert (W : wf_d4rl ds1) by (unfold wf_d4rl; simpl; repeat split).
  assert (L : 1 <= length (observations ds1)) by (simpl; lia).
  split; [exact W|]. split; [exact L|].
  destruct (convert_then_sample (init 1 1 4) ds1 3 (fun j => j) W L)
    as (ind & mb & H1 & H2 & _ & _ & _ & _ & H3).
  exists ind, mb. split; [exact H1|]. split; [exact H2|exact H3].
Defined.

End BufferInstances.

Section SelectorInstances.
Import Buffer Selector.
Local Open Scope Q_scope.

Lemma select_from_mask_shapes_witness :
  columns_have 3 rb3 /\
  exists rb', select_from_mask D3 rb3 [false; false; true] (1#2) 2 (1#2) 1 = Ok rb' /\
    (size rb' <= 3)%nat /\ timeout rb' = timeout rb3.
Proof.
  assert (C : columns_have 3 rb3) by (unfold columns_have; vm_compute; repeat split).
  split; [exact C|].
  destruct (select_from_mask D3 rb3 [false; false; true] (1#2) 2 (1#2) 1) as [rb'|e] eqn:E;
    [|vm_compute in E; discriminate].
  exists rb'. split; [reflexivity|].
  destruct (select_from_mask_shapes D3 rb3 rb' 3 [false; false; true] (1#2) 2 (1#2) 1 C
              eq_refl E) as (H1 & _ & _ & _ & _ & _ & _ & _ & H9).
  split; assumption.
Defined.

Definition st3 : sel_state := {| sel_mask := [false; false; true]; sel_weight := [0; 0; 0]; sel_wd := 1 |}.

Lemma rollback_keeps_mask_witness :
  exists st', rollback_loop D3 (1#2) (state rb3) (action rb3) [3%nat] (1#2) (seq 0 2) st3 = Ok st' /\
    nth 2 (sel_mask st3) false = true /\ nth 2 (sel_mask st') false = true.
Proof.
  destruct (rollback_loop D3 (1#2) (state rb3) (action rb3) [3%nat] (1#2) (seq 0 2) st3)
    as [st'|e] eqn:E; [|vm_compute in E; discriminate].
  exists st'. split; [reflexivity|]. split; [reflexivity|].
  exact (rollback_keeps_mask D3 (1#2) (state rb3) (action rb3) [3%nat] (1#2) (seq 0 2) st3 st' 2
           E eq_refl).
Defined.

Lemma retained_weight_floor_witness :
  exists st', rollback_loop D3 (1#2) (state rb3) (action rb3) [3%nat] (1#2) (seq 0 (S 1))
    {| sel_mask := [false; false; true]; sel_weight := [0; 0; 0]; sel_wd := 1 |} = Ok st' /\
    nth 2 (sel_mask st') false = true /\ 1 * (1#2) ^ Z.of_nat 1 <= nth 2 (sel_weight st') 0.
Proof.
  destruct (rollback_loop D3 (1#2) (state rb3) (action rb3) [3%nat] (1#2) (seq 0 (S 1))
    {| sel_mask := [false; false; true]; sel_weight := [0; 0; 0]; sel_wd := 1 |})
    as [st'|e] eqn:E; [|vm_compute in E; discriminate].
  assert (Hm : nth 2 (sel_mask st') false = true) by (vm_compute in E; injection E as <-; reflexivity).
  exists st'. split; [reflexivity|]. split; [exact Hm|].
  exact (retained_weight_floor D3 (1#2) (state rb3) (action rb3) [3%nat] (1#2) 1
           [false; false; true] [0; 0; 0] 1 st' 2 E Hm).
Defined.

Lemma rollback_zero_weights_witness :
  exists rb', select_from_mask D3 (convert_d4rl (init 1 1 4) ds3) [true; false; true] (1#2) 0 (1#2) 1
    = Ok rb' /\ state rb' = [[0]; [2]] /\ Forall (fun w => w == 0) (weight rb').
Proof.
  destruct (select_from_mask D3 (convert_d4rl (init 1 1 4) ds3) [true; false; true] (1#2) 0 (1#2) 1)
    as [rb'|e] eqn:E; [|vm_compute in E; discriminate].
  exists rb'. split; [reflexivity|].
  destruct (rollback_zero_weights D3 (init 1 1 4) rb' ds3 [true; false; true] (1#2) (1#2) 1 E)
    as [H1 H2].
  split; [rewrite H1; reflexivity|exact H2].
Defined.

End SelectorInstances.

Section RealInstances.
Local Open Scope R_scope.

Lemma policy_loss_uniform_weights_witness :
  Forall (fun w => hd 0 w = 3) [[3]; [3]] /\ length [[3]; [3]] = length [[1]; [2]] /\
  let r := Trainer.train_policy_losses false 1 0 0 [[1]; [2]] [[0]; [0]] [[0]; [0]] [[3]; [3]] in
  Trainer.ps_p_loss r = Trainer.spec_p_loss (Trainer.ps_alpha r) [[1]; [2]] [[0]; [0]] [[3]; [3]].
Proof.
  assert (H1 : Forall (fun w => hd 0 w = 3) [[3]; [3]]) by repeat constructor.
  assert (H2 : length [[3]; [3]] = length [[1]; [2]]) by reflexivity.
  split; [exact H1|]. split; [exact H2|].
  exact (policy_loss_uniform_weights false 1 0 0 3 [[1]; [2]] [[0]; [0]] [[0]; [0]] [[3]; [3]] H1 H2).
Defined.

Lemma online_reward_decreasing_witness :
  0 < 1/4 /\ 1/4 < 1/2 /\ 1/2 < 1 /\
  Online.online_reward (1/2) 1 1 < Online.online_reward (1/4) 1 1.
Proof.
  assert (H1 : 0 < 1/4) by lra. assert (H2 : 1/4 < 1/2) by lra. assert (H3 : 1/2 < 1) by lra.
  assert (Hy : 0 < 1) by lra.
  split; [exact H1|]. split; [exact H2|]. split; [exact H3|].
  exact (proj1 (proj2 (online_reward_decreasing (1/4) (1/2) 1 1 H1 H2 H3 Hy Hy))).
Defined.

End RealInstances.

Section LabelsInstances.
Import String.
Local Open Scope R_scope.

Lemma label_offline_reward_key_error_witness :
  let ds := {| Labels.d_obs := [[0]]; Labels.d_act := [[0]];
               Labels.d_cols := [("rewards"%string, [0])] |} in
  (exists ds1, fold_left (Labels.relabel_step true p0) (seq 0 1) (inl ds) = inl ds1) /\
  Labels.label_offline_reward true p0 true false ds = inr (Labels.KeyError "reward").
Proof.
  cbv zeta.
  assert (Hf : exists ds1, fold_left (Labels.relabel_step true p0) (seq 0 1)
    (inl {| Labels.d_obs := [[0]]; Labels.d_act := [[0]];
            Labels.d_cols := [("rewards"%string, [0])] |}) = inl ds1)
    by (eexists; reflexivity).
  split; [exact Hf|].
  apply (label_offline_reward_key_error true p0 true false _ [0]).
  - discriminate.
  - reflexivity.
  - simpl. lia.
  - reflexivity.
  - right. exact Hf.
Defined.

End LabelsInstances.

Section DeviceInstances.
Local Open Scope Z_scope.

Lemma select_free_gpu_first_max_witness :
  Device.select_free_gpu ([(0, 5)] ++ (1, 7) :: [(2, 7); (3, 3)]) = (Some 1, 7).
Proof.
  apply select_free_gpu_first_max.
  - apply Forall_cons; [simpl; lia|apply Forall_nil].
  - apply Forall_cons; [simpl; lia|]. apply Forall_cons; [simpl; lia|apply Forall_nil].
Defined.

End DeviceInstances.
